(** * Pariksha exam guardian: live evaluation and test submission hooks

    A shallow embedding of the hooks [useLiveEvaluation] and
    [useTestSubmission], and of the statistics the evaluation dashboard
    derives from them.

    Rows travel as JavaScript objects: they are spread into one another
    ([{ ...s, ...payload.new }]) and read field by field, so a row is a
    finite map from field names to values.  A field that is missing reads
    as [undefined], which is [None] here. *)

From Stdlib Require Import ZArith.
From stdpp Require Import base option strings gmap list.

Local Open Scope string_scope.
Local Open Scope list_scope.
Local Open Scope Z_scope.

(** ** Values and rows *)

(** The values a column holds.  [VProfile] is the embedded resource
    [profiles:student_id (full_name, email)] of the session query. *)
Inductive value : Type :=
  | VNull
  | VBool (b : bool)
  | VNum (n : Z)
  | VStr (s : string)
  | VProfile (full_name email : string).

#[global] Instance value_eq_dec : EqDecision value.
Proof. solve_decision. Defined.

Abbreviation row := (gmap string value).

(** [{ ...s, ...n }]: the fields of [n] win, the others are kept. *)
Definition spread (s n : row) : row := n ∪ s.

(** [{ ...o, k: v }] where [v] may be [undefined]. *)
Definition set_field (k : string) (v : option value) (o : row) : row :=
  match v with
  | Some x => <[k := x]> o
  | None => delete k o
  end.

(** [r.col === x] for a string [x]; also the filter [.eq(col, x)] of a
    request. *)
Definition col_is (col x : string) (r : row) : bool :=
  bool_decide (r !! col = Some (VStr x)).

(** ** The durable store

    The hosted backend is reached through the query builder of its client
    library.  What follows is the behaviour of the requests the hooks
    build: a table is the list of its rows, a filtered read with
    [.single()] yields a row exactly when one row matches, a filtered
    update rewrites every matching row (and is not an error when none
    matches), an insert appends one row under a primary key not in use. *)

Record Db : Type := mkDb {
  tbl_test_sessions : list row;
  tbl_answers : list row;
  tbl_profiles : list row
}.

Definition with_answers (db : Db) (t : list row) : Db :=
  mkDb (tbl_test_sessions db) t (tbl_profiles db).

Definition with_test_sessions (db : Db) (t : list row) : Db :=
  mkDb t (tbl_answers db) (tbl_profiles db).

(** [.single()]: data only when exactly one row is selected. *)
Definition single (rows : list row) : option row :=
  match rows with
  | [r] => Some r
  | _ => None
  end.

Definition select_single (p : row → bool) (t : list row) : option row :=
  single (filter (λ r, p r = true) t).

Definition update_where (patch : row) (p : row → bool) (t : list row) : list row :=
  (λ r, if p r then spread r patch else r) <$> t.

(** The primary keys in use, and the key the store gives a new row. *)
Definition row_key (r : row) : option string :=
  match r !! "id" with
  | Some (VStr i) => Some i
  | _ => None
  end.

Definition keys (t : list row) : list string := omap row_key t.

Definition new_key (t : list row) : string := fresh (keys t).

Definition stored (r : row) (t : list row) : row :=
  <["id" := VStr (new_key t)]> r.

Definition insert_row (r : row) (t : list row) : list row :=
  t ++ [stored r t].

(** A request either reaches the store and is carried out, or fails on the
    way.  Which requests fail is the environment's choice: a [network]
    says, for each request, whether it is refused. *)
Inductive verb : Type := Select | Insert | Update.

Record request : Type := Req {
  req_verb : verb;
  req_table : string;
  req_filter : list string
}.

Definition network : Type := request → bool.

Definition reliable : network := λ _, false.

(** ** useLiveEvaluation: the session and answer stores *)

Inductive operation : Type := INSERT | UPDATE | DELETE.

(** A change event.  [new] is empty on DELETE and [old] on INSERT. *)
Record payload : Type := mkPayload {
  eventType : operation;
  new : row;
  old : row
}.

(** The session query of [fetchData] and of the INSERT handler for one id:
    the row together with the profile of its student. *)
Definition embed_profile (db : Db) (s : row) : value :=
  match s !! "student_id" with
  | Some (VStr sid) =>
      match select_single (col_is "id" sid) (tbl_profiles db) with
      | Some p =>
          match p !! "full_name", p !! "email" with
          | Some (VStr n), Some (VStr e) => VProfile n e
          | _, _ => VNull
          end
      | None => VNull
      end
  | _ => VNull
  end.

Definition fetch_session (net : network) (db : Db) (id : option value) : option row :=
  match id with
  | Some (VStr i) =>
      if net (Req Select "test_sessions" [i]) then None
      else (λ s, <["profiles" := embed_profile db s]> s)
             <$> select_single (col_is "id" i) (tbl_test_sessions db)
  | _ => None
  end.

(** The callback of the channel [sessions-<testId>], as the update it
    makes to [sessions].  [db] is the store at the time the INSERT branch
    reads the new session back. *)
Definition on_session_change (net : network) (db : Db) (p : payload)
    (prev : list row) : list row :=
  match eventType p with
  | INSERT =>
      match fetch_session net db (new p !! "id") with
      | Some data => prev ++ [set_field "student" (data !! "profiles") data]
      | None => prev
      end
  | UPDATE =>
      (λ s, if decide (s !! "id" = new p !! "id") then spread s (new p) else s) <$> prev
  | DELETE =>
      filter (λ s, s !! "id" ≠ old p !! "id") prev
  end.

(** The callback of the channel [answers-<testId>]. *)
Definition on_answer_change (p : payload) (prev : list row) : list row :=
  match eventType p with
  | INSERT => prev ++ [new p]
  | UPDATE =>
      (λ a, if decide (a !! "id" = new p !! "id") then spread a (new p) else a) <$> prev
  | DELETE =>
      filter (λ a, a !! "id" ≠ old p !! "id") prev
  end.

(** [getSessionAnswers] *)
Definition getSessionAnswers (answers : list row) (sessionId : string) : list row :=
  filter (λ a, a !! "session_id" = Some (VStr sessionId)) answers.

(** [getLiveStats].  Counts are JavaScript numbers; they are lengths and
    one difference of lengths, so integers. *)
Record LiveStats : Type := mkStats {
  totalSessions : Z;
  activeSessions : Z;
  submittedSessions : Z;
  terminatedSessions : Z;
  totalAnswers : Z;
  gradedAnswers : Z;
  pendingGrading : Z
}.

Definition status_is (x : string) (s : row) : bool := col_is "status" x s.

Definition is_active (s : row) : bool := status_is "active" s || status_is "in_progress" s.
Definition is_submitted (s : row) : bool := status_is "completed" s || status_is "submitted" s.
Definition is_terminated (s : row) : bool := status_is "terminated" s.

(** [a.graded_by !== null] *)
Definition is_graded (a : row) : bool := bool_decide (a !! "graded_by" ≠ Some VNull).

Definition count (p : row → bool) (l : list row) : Z :=
  Z.of_nat (length (filter (λ r, p r = true) l)).

Definition getLiveStats (sessions answers : list row) : LiveStats :=
  let total := Z.of_nat (length answers) in
  let graded := count is_graded answers in
  {| totalSessions := Z.of_nat (length sessions);
     activeSessions := count is_active sessions;
     submittedSessions := count is_submitted sessions;
     terminatedSessions := count is_terminated sessions;
     totalAnswers := total;
     gradedAnswers := graded;
     pendingGrading := total - graded |}.

(** The fields [gradeAnswer] writes.  [now] is [new Date().toISOString()].
    Marks are whole numbers here: the hook stores them and compares them
    with 0. *)
Definition grade_patch (now : string) (marks : Z) (graderId : string) : row :=
  {[ "marks_awarded" := VNum marks;
     "is_correct" := VBool (bool_decide (marks > 0));
     "graded_by" := VStr graderId;
     "graded_at" := VStr now ]}.

(** [gradeAnswer]: one update of the answers table, filtered by id.  The
    hook returns [false] exactly when the response carries an error. *)
Definition gradeAnswer (net : network) (now : string)
    (answerId : string) (marks : Z) (graderId : string) (db : Db) : bool * Db :=
  if net (Req Update "answers" [answerId]) then (false, db)
  else (true, with_answers db
          (update_where (grade_patch now marks graderId) (col_is "id" answerId)
             (tbl_answers db))).

(** ** useTestSubmission *)

(** What [getOrCreateSession] gives back: the session row, or the error of
    the insert, thrown again to the caller. *)
Inductive outcome : Type :=
  | Returned (s : row)
  | Thrown.

Definition session_of (testId studentId : string) (r : row) : bool :=
  col_is "test_id" testId r && col_is "student_id" studentId r.

Definition session_values (now testId studentId : string) : row :=
  {[ "test_id" := VStr testId;
     "student_id" := VStr studentId;
     "status" := VStr "active";
     "started_at" := VStr now ]}.

Definition getOrCreateSession (net : network) (now : string)
    (testId studentId : string) (db : Db) : outcome * Db :=
  let existingSession :=
    if net (Req Select "test_sessions" [testId; studentId]) then None
    else select_single (session_of testId studentId) (tbl_test_sessions db) in
  match existingSession with
  | Some s => (Returned s, db)
  | None =>
      if net (Req Insert "test_sessions" [testId; studentId]) then (Thrown, db)
      else
        let newSession :=
          stored (session_values now testId studentId) (tbl_test_sessions db) in
        (Returned newSession,
         with_test_sessions db
           (insert_row (session_values now testId studentId) (tbl_test_sessions db)))
  end.

Definition answer_of (sessionId questionId : string) (r : row) : bool :=
  col_is "session_id" sessionId r && col_is "question_id" questionId r.

(** The fields [submitAnswer] writes on update and on insert. *)
Definition answer_patch (now answer : string) : row :=
  {[ "student_answer" := VStr answer; "updated_at" := VStr now ]}.

Definition answer_values (sessionId questionId answer : string) : row :=
  {[ "session_id" := VStr sessionId;
     "question_id" := VStr questionId;
     "student_answer" := VStr answer ]}.

(** [submitAnswer]: look the answer up, then update it by id or insert it.
    Every error is caught and turned into [false].  A row read from the
    table carries its primary key; were [existingAnswer.id] undefined, the
    store would refuse the filter. *)
Definition submitAnswer (net : network) (now : string)
    (sessionId questionId answer : string) (db : Db) : bool * Db :=
  let existingAnswer :=
    if net (Req Select "answers" [sessionId; questionId]) then None
    else select_single (answer_of sessionId questionId) (tbl_answers db) in
  match existingAnswer with
  | Some ex =>
      match row_key ex with
      | Some id =>
          if net (Req Update "answers" [id]) then (false, db)
          else (true, with_answers db
                  (update_where (answer_patch now answer) (col_is "id" id)
                     (tbl_answers db)))
      | None => (false, db)
      end
  | None =>
      if net (Req Insert "answers" [sessionId; questionId]) then (false, db)
      else (true, with_answers db
              (insert_row (answer_values sessionId questionId answer)
                 (tbl_answers db)))
  end.

(** The answer phase of [submitTest]: one [submitAnswer] per entry of
    [answers].  The promises are awaited together; the requests of
    different questions address different rows, and they are carried out
    here in the order of the entries.  [clock] gives the time each call
    reads, by question.  The list of booleans is what [Promise.all]
    resolves to. *)
Fixpoint submitAnswers (net : network) (clock : string → string) (sessionId : string)
    (entries : list (string * string)) (db : Db) : list bool * Db :=
  match entries with
  | [] => ([], db)
  | (questionId, answer) :: rest =>
      let '(ok, db1) :=
        submitAnswer net (clock questionId) sessionId questionId answer db in
      let '(oks, db2) := submitAnswers net clock sessionId rest db1 in
      (ok :: oks, db2)
  end.

Definition status_patch (now : string) (forced : bool) : row :=
  {[ "status" := VStr (if forced then "terminated" else "completed");
     "submitted_at" := VStr now ]}.

(** [submitTest].  [submitAnswer] never rejects, so [Promise.all] never
    does; what it resolves to is not looked at. *)
Definition submitTest (net : network) (clock : string → string) (now : string)
    (sessionId : string) (answers : gmap string string) (forced : bool)
    (db : Db) : bool * Db :=
  let '(_, db1) := submitAnswers net clock sessionId (map_to_list answers) db in
  if net (Req Update "test_sessions" [sessionId]) then (false, db1)
  else (true, with_test_sessions db1
          (update_where (status_patch now forced) (col_is "id" sessionId)
             (tbl_test_sessions db1))).

(** ** useRealtimeTestSessions *)

(** Modelled from the spec: [terminateStudent] of the hook
    [useRealtimeTestSessions], which the monitoring dashboard imports and
    whose file is not among the sources.  The session with this id gets
    the status [terminated]. *)
Definition terminateStudent (sessionId : string) (db : Db) : Db :=
  with_test_sessions db
    (update_where {[ "status" := VStr "terminated" ]} (col_is "id" sessionId)
       (tbl_test_sessions db)).

(** Modelled from the spec: [allowContinue] of the same hook.  The session
    with this id goes back to the status [in_progress]. *)
Definition allowContinue (sessionId : string) (db : Db) : Db :=
  with_test_sessions db
    (update_where {[ "status" := VStr "in_progress" ]} (col_is "id" sessionId)
       (tbl_test_sessions db)).

(** ** Vocabulary of the properties *)

(** What the session INSERT handler appends: the fetched row, if the
    store has exactly one session under the new row's id. *)
Definition session_arrival (net : network) (db : Db) (n : row) : list row :=
  match fetch_session net db (n !! "id") with
  | Some data => [set_field "student" (data !! "profiles") data]
  | None => []
  end.

(** Counting with a boolean test, one row at a time. *)
Definition b2z (b : bool) : Z := if b then 1 else 0.

(** A session that [getLiveStats] puts in none of its three categories. *)
Definition uncategorised (s : row) : bool :=
  negb (is_active s || is_submitted s || is_terminated s).

(** The answers table holds [answer] for the question [questionId] of
    the session [sessionId]. *)
Definition has_answer (sessionId questionId answer : string) (t : list row) : Prop :=
  ∃ r, r ∈ t
    ∧ r !! "session_id" = Some (VStr sessionId)
    ∧ r !! "question_id" = Some (VStr questionId)
    ∧ r !! "student_answer" = Some (VStr answer).

(** One answer per session and question. *)
Definition one_per_question (t : list row) : Prop :=
  ∀ sessionId questionId,
    (length (filter (λ r, answer_of sessionId questionId r = true) t) ≤ 1)%nat.

#[global] Instance verb_eq_dec : EqDecision verb.
Proof. solve_decision. Defined.

#[global] Instance request_eq_dec : EqDecision request.
Proof. solve_decision. Defined.

(** The network that refuses one request and carries out all others. *)
Definition refuses (bad : request) : network := λ req, bool_decide (req = bad).

(** ** Stores used as examples *)

Definition graded_example : Db :=
  mkDb [] [ {[ "id" := VStr "a1"; "student_answer" := VStr "42" ]} ] [].

(** Session [s1] is active and its answer to [q1] is on record as 41. *)
Definition sitting : Db :=
  mkDb [ {[ "id" := VStr "s1"; "status" := VStr "active" ]} ]
       [ {[ "id" := VStr "a1"; "session_id" := VStr "s1";
            "question_id" := VStr "q1"; "student_answer" := VStr "41" ]} ]
       [].

(** Closes [k ∉ [k1; ...; kn]] for literal field names. *)
Ltac not_listed :=
  let H := fresh in
  intros H;
  repeat (apply elem_of_cons in H as [H|H]; [discriminate H|]);
  by apply elem_of_nil in H.

(** * The rest of the hooks and the dashboards *)

(** ** useLiveEvaluation: the initial fetch *)

(** The state of the hook. *)
Record LiveState : Type := mkLive {
  st_sessions : list row;
  st_answers : list row;
  st_isLoading : bool
}.

(** [.in(col, xs)] *)
Definition col_in (col : string) (xs : list string) (r : row) : bool :=
  match r !! col with
  | Some (VStr x) => bool_decide (x ∈ xs)
  | _ => false
  end.

(** The session query of [fetchData]: the sessions of the test, each with
    the profile of its student. *)
Definition sessions_of_test (db : Db) (testId : string) : list row :=
  (λ s, <["profiles" := embed_profile db s]> s)
    <$> filter (λ s, col_is "test_id" testId s = true) (tbl_test_sessions db).

(** [{ ...session, student: session.profiles }] *)
Definition with_student (session : row) : row :=
  set_field "student" (session !! "profiles") session.

(** [fetchData].  An empty [testId] is falsy and ends the call at once.
    A failed query throws into the [catch]; [finally] clears the loading
    flag.  The sessions are set before the answers are asked for, and the
    answers are asked for only when some session came back. *)
Definition fetchData (net : network) (db : Db) (testId : string)
    (st : LiveState) : LiveState :=
  if decide (testId = "") then st
  else if net (Req Select "test_sessions" ["test_id"; testId])
  then mkLive (st_sessions st) (st_answers st) false
  else
    let sessionData := sessions_of_test db testId in
    let mappedSessions := with_student <$> sessionData in
    match sessionData with
    | [] => mkLive mappedSessions (st_answers st) false
    | _ :: _ =>
        let sessionIds := keys sessionData in
        if net (Req Select "answers" sessionIds)
        then mkLive mappedSessions (st_answers st) false
        else mkLive mappedSessions
               (filter (λ a, col_in "session_id" sessionIds a = true) (tbl_answers db))
               false
    end.

(** ** LiveEvaluationDashboard *)

(** Whether a value counts as true in a condition; [None] is [undefined]. *)
Definition truthy (v : option value) : bool :=
  match v with
  | None | Some VNull => false
  | Some (VBool b) => b
  | Some (VNum n) => negb (n =? 0)
  | Some (VStr s) => negb (String.eqb s "")
  | Some (VProfile _ _) => true
  end.

(** The badge a status is shown with: one of three coloured labels, or
    the status itself in an outline. *)
Inductive badge : Type :=
  | InProgress
  | Submitted
  | Terminated
  | Outline (status : option value).

#[global] Instance badge_eq_dec : EqDecision badge.
Proof. solve_decision. Defined.

(** [getStatusBadge] of the evaluation dashboard. *)
Definition getStatusBadge (status : option value) : badge :=
  match status with
  | Some (VStr s) =>
      if decide (s = "active") then InProgress
      else if decide (s = "in_progress") then InProgress
      else if decide (s = "completed") then Submitted
      else if decide (s = "submitted") then Submitted
      else if decide (s = "terminated") then Terminated
      else Outline status
  | _ => Outline status
  end.

(** The counts of a row of the overview table and of an entry of the
    evaluation list. *)
Definition gradedCount (answers : list row) (sessionId : string) : Z :=
  Z.of_nat (length (filter (λ a, truthy (a !! "graded_by") = true)
                      (getSessionAnswers answers sessionId))).

Definition pendingCount (answers : list row) (sessionId : string) : Z :=
  Z.of_nat (length (filter (λ a, negb (truthy (a !! "graded_by")) = true)
                      (getSessionAnswers answers sessionId))).

(** The sessions listed in the evaluation tab. *)
Definition evaluable (sessions : list row) : list row :=
  filter (λ s, s !! "status" = Some (VStr "completed")
               ∨ s !! "status" = Some (VStr "submitted")) sessions.

(** ** useTestSubmission: warnings and the monitoring log *)

(** The argument of [updateSessionWarnings]: each counter may be left out. *)
Record warningData : Type := mkWarning {
  total_warnings : option Z;
  tab_switch_count : option Z;
  fullscreen_exit_count : option Z
}.

Definition opt_field (k : string) (v : option Z) : row :=
  match v with
  | Some n => {[ k := VNum n ]}
  | None => ∅
  end.

(** The object passed to [.update]: the counters that are present. *)
Definition warning_patch (w : warningData) : row :=
  opt_field "total_warnings" (total_warnings w)
  ∪ opt_field "tab_switch_count" (tab_switch_count w)
  ∪ opt_field "fullscreen_exit_count" (fullscreen_exit_count w).

Definition updateSessionWarnings (net : network) (sessionId : string)
    (w : warningData) (db : Db) : bool * Db :=
  if net (Req Update "test_sessions" [sessionId]) then (false, db)
  else (true, with_test_sessions db
          (update_where (warning_patch w) (col_is "id" sessionId)
             (tbl_test_sessions db))).

(** [logMonitoringEvent], on the table [monitoring_logs].  [eventData] is
    optional; left out, the row has no [event_data]. *)
Definition log_values (sessionId eventType : string) (eventData : option value) : row :=
  set_field "event_data" eventData
    {[ "session_id" := VStr sessionId; "event_type" := VStr eventType ]}.

Definition logMonitoringEvent (net : network) (sessionId eventType : string)
    (eventData : option value) (logs : list row) : bool * list row :=
  if net (Req Insert "monitoring_logs" [sessionId; eventType]) then (false, logs)
  else (true, insert_row (log_values sessionId eventType eventData) logs).

(** ** LiveMonitoringDashboard: what it derives from the sessions *)

Module Monitoring.

(** Modelled from the spec: the type of the sessions that the hook
    [useRealtimeTestSessions] hands to the dashboard.  The hook's file is
    not among the sources; these are the fields the dashboard reads, with
    the types of the data model (counters are numbers, times may be
    null). *)
Record session : Type := mkSession {
  id : string;
  student_name : string;
  student_email : string;
  status : string;
  started_at : option string;
  submitted_at : option string;
  total_warnings : Z;
  tab_switch_count : Z;
  fullscreen_exit_count : Z
}.

(** The same session as the object the other hook and dashboard read. *)
Definition as_row (s : session) : row :=
  {[ "id" := VStr (id s);
     "student_name" := VStr (student_name s);
     "student_email" := VStr (student_email s);
     "status" := VStr (status s);
     "started_at" := from_option VStr VNull (started_at s);
     "submitted_at" := from_option VStr VNull (submitted_at s);
     "total_warnings" := VNum (total_warnings s);
     "tab_switch_count" := VNum (tab_switch_count s);
     "fullscreen_exit_count" := VNum (fullscreen_exit_count s) ]}.

Definition activeSessions (sessions : list session) : list session :=
  filter (λ s, status s = "in_progress") sessions.

Definition completedSessions (sessions : list session) : list session :=
  filter (λ s, status s = "completed" ∨ status s = "submitted") sessions.

Definition terminatedSessions (sessions : list session) : list session :=
  filter (λ s, status s = "terminated") sessions.

(** [sessions.reduce((acc, s) => acc + s.total_warnings, 0)] *)
Definition totalWarnings (sessions : list session) : Z :=
  fold_left (λ acc s, acc + total_warnings s) sessions 0.

Definition studentsAtRisk (warningThreshold : Z) (sessions : list session)
    : list session :=
  filter (λ s, total_warnings s >= warningThreshold ∧ status s = "in_progress")
    sessions.

Inductive badge : Type :=
  | Live
  | Submitted
  | Terminated
  | NotStarted
  | Outline (status : string).

Definition getStatusBadge (status : string) : badge :=
  if decide (status = "in_progress") then Live
  else if decide (status = "completed") then Submitted
  else if decide (status = "submitted") then Submitted
  else if decide (status = "terminated") then Terminated
  else if decide (status = "not_started") then NotStarted
  else Outline status.

Definition getWarningColor (warningThreshold warnings : Z) : string :=
  if decide (warnings = 0) then "text-green-500"
  else if decide (warnings < warningThreshold) then "text-yellow-500"
  else "text-red-500 font-bold".

(** The buttons of a row of the table of all students. *)
Definition offersTerminate (s : session) : bool := bool_decide (status s = "in_progress").
Definition offersAllow (s : session) : bool := bool_decide (status s = "terminated").

End Monitoring.

(** ** AuthContext *)

Module Auth.

(** [UserRole] without [null]; a role that may be [null] is an option. *)
Inductive UserRole : Type := faculty | student | admin.

#[global] Instance UserRole_eq_dec : EqDecision UserRole.
Proof. solve_decision. Defined.

Definition role_name (r : UserRole) : string :=
  match r with
  | faculty => "faculty"
  | student => "student"
  | admin => "admin"
  end.

Record User : Type := mkUser {
  id : string;
  name : string;
  email : string;
  role : option UserRole;
  erpId : string;
  department : option string;
  course : option string;
  permissions : list string
}.

Definition DEFAULT_PERMISSIONS (r : UserRole) : list string :=
  match r with
  | admin => ["all"; "manage_users"; "manage_tests"; "manage_system"]
  | faculty => ["create_test"; "view_results"; "manage_own_tests"]
  | student => ["take_test"; "view_own_results"]
  end.

(** The state of the provider: the user, and the user kept in local
    storage under [pariksha_user]. *)
Record AuthState : Type := mkAuth {
  user : option User;
  stored : option User
}.

(** The character [@], code 64. *)
Definition at_sign : Ascii.ascii :=
  Ascii.Ascii false false false false false false true false.

(** [identifier.includes("@")] *)
Fixpoint contains_at (s : string) : bool :=
  match s with
  | EmptyString => false
  | String c rest => if decide (c = at_sign) then true else contains_at rest
  end.

(** [email.split("@")[0]] *)
Fixpoint before_at (s : string) : string :=
  match s with
  | EmptyString => EmptyString
  | String c rest => if decide (c = at_sign) then EmptyString else String c (before_at rest)
  end.

(** The address [login] signs in with. *)
Definition login_email (identifier : string) : string :=
  if contains_at identifier then identifier
  else (identifier +:+ "@pariksha.edu")%string.

(** An entry of [MOCK_USERS]: a user and a password.  [secureUser] is the
    entry without the password, here [account]. *)
Record MockUser : Type := mkMock {
  account : User;
  password : string
}.

Definition MOCK_USERS (r : UserRole) : list MockUser :=
  match r with
  | faculty =>
      [ mkMock (mkUser "11111111-1111-1111-1111-111111111111" "Dr. Jane Smith"
                  "jane@faculty.edu" (Some faculty) "DBUUF001"
                  (Some "Computer Science") None (DEFAULT_PERMISSIONS faculty))
               "123456";
        mkMock (mkUser "22222222-2222-2222-2222-222222222222" "Prof. John Doe"
                  "john@faculty.edu" (Some faculty) "DBUUF002"
                  (Some "Mathematics") None (DEFAULT_PERMISSIONS faculty))
               "password123" ]
  | student =>
      [ mkMock (mkUser "44444444-4444-4444-4444-444444444444" "Alex Johnson"
                  "alex@student.edu" (Some student) "22BTCSE0100"
                  None (Some "Computer Science") (DEFAULT_PERMISSIONS student))
               "password123";
        mkMock (mkUser "66666666-6666-6666-6666-666666666666" "Anshul"
                  "anshul@student.edu" (Some student) "22BTCSE0200"
                  None (Some "Computer Science") (DEFAULT_PERMISSIONS student))
               "24042004" ]
  | admin =>
      [ mkMock (mkUser "77777777-7777-7777-7777-777777777777" "Admin User"
                  "admin@pariksha.edu" (Some admin) "ADMIN001"
                  None None (DEFAULT_PERMISSIONS admin))
               "admin123" ]
  end.

(** The test of [roleUsers.find] in [loginLocal]. *)
Definition matches (identifier pw : string) (role : option UserRole)
    (u : MockUser) : bool :=
  (bool_decide (role = Some admin)
   && bool_decide (email (account u) = identifier)
   && bool_decide (password u = pw))
  || (bool_decide (role ≠ Some admin)
      && ((bool_decide (email (account u) = identifier)
           || bool_decide (erpId (account u) = identifier))
          && bool_decide (password u = pw))).

(** [loginLocal].  [MOCK_USERS[role] || []] is empty for the role [null]. *)
Definition loginLocal (identifier pw : string) (role : option UserRole)
    (st : AuthState) : bool * AuthState :=
  let roleUsers := from_option MOCK_USERS [] role in
  match List.find (matches identifier pw role) roleUsers with
  | Some mockUser => (true, mkAuth (Some (account mockUser)) (Some (account mockUser)))
  | None => (false, st)
  end.

(** The rows of the tables [profiles] and [user_roles], with the columns
    the provider reads: [id], [full_name] and [email] of a profile, taken
    to hold strings, and [user_id] and [role] of a role row, the role
    being one of the three. *)
Record profile : Type := mkProfile {
  profile_id : string;
  full_name : string;
  profile_email : string
}.

Record user_role : Type := mkRole {
  user_id : string;
  granted : UserRole
}.

Record AuthDb : Type := mkAuthDb {
  profiles : list profile;
  user_roles : list user_role
}.

(** [.single()] on typed rows. *)
Definition the_one {A : Type} (l : list A) : option A :=
  match l with
  | [x] => Some x
  | _ => None
  end.

(** The user [fetchUserProfile] and [getUsers] build from a profile. *)
Definition user_of (p : profile) (r : UserRole) : User :=
  mkUser (profile_id p) (full_name p) (profile_email p) (Some r)
    (before_at (profile_email p)) None None (DEFAULT_PERMISSIONS r).

(** [fetchUserProfile].  Without exactly one profile the call ends and
    sets nothing; a role that cannot be read is taken to be student. *)
Definition fetchUserProfile (net : network) (db : AuthDb) (userId : string)
    (st : AuthState) : AuthState :=
  let found :=
    if net (Req Select "profiles" [userId]) then None
    else the_one (filter (λ p, profile_id p = userId) (profiles db)) in
  match found with
  | None => st
  | Some p =>
      let roleData :=
        if net (Req Select "user_roles" [userId]) then None
        else the_one (filter (λ r, user_id r = userId) (user_roles db)) in
      let userRole := from_option granted student roleData in
      let userData :=
        mkUser userId (full_name p) (profile_email p) (Some userRole)
          (before_at (profile_email p)) None None (DEFAULT_PERMISSIONS userRole) in
      mkAuth (Some userData) (Some userData)
  end.

(** What the hosted sign-in answers: an error, an exception, a user, or
    neither error nor user. *)
Inductive signIn : Type :=
  | Rejected
  | Threw
  | SignedIn (userId : string)
  | NoUser.

(** [login], with the hosted sign-in as a function of the address and the
    password.  What the listener of auth state changes does on its own
    when the sign-in succeeds is not part of the call. *)
Definition login (auth : string → string → signIn) (net : network) (db : AuthDb)
    (identifier pw : string) (role : option UserRole) (st : AuthState)
    : bool * AuthState :=
  match auth (login_email identifier) pw with
  | Rejected | Threw => loginLocal identifier pw role st
  | SignedIn userId => (true, fetchUserProfile net db userId st)
  | NoUser => (false, st)
  end.

(** [getUsers] *)
Definition getUsers (net : network) (db : AuthDb) (role : option UserRole)
    : list User :=
  match role with
  | None => []
  | Some r =>
      if net (Req Select "user_roles" [role_name r]) then []
      else
        match filter (λ x, granted x = r) (user_roles db) with
        | [] => []
        | roleData =>
            let userIds := user_id <$> roleData in
            if net (Req Select "profiles" userIds) then []
            else (λ p, user_of p r)
                   <$> filter (λ p, profile_id p ∈ userIds) (profiles db)
        end
  end.

End Auth.

(** ** EvaluateTest: who may open the page *)

(** The page sends to the login whoever is not signed in as faculty or
    admin. *)
Definition may_evaluate (user : option Auth.User) : bool :=
  match user with
  | None => false
  | Some u =>
      negb (bool_decide (Auth.role u ≠ Some Auth.faculty)
            && bool_decide (Auth.role u ≠ Some Auth.admin))
  end.

(** ** LiveEvaluationDashboard: the evaluation panel *)

(** What the panel shows for an answer: nothing when the test has no
    question with the answer's [question_id], a card when the answer is
    graded, the grading form otherwise. *)
Inductive panel_item : Type :=
  | Hidden
  | GradedCard (answer question : row)
  | GradeForm (answer question : row).

Definition panel_item_of (questions : list row) (answer : row) : panel_item :=
  match List.find (λ q, bool_decide (q !! "id" = answer !! "question_id")) questions with
  | None => Hidden
  | Some question =>
      if truthy (answer !! "graded_by") then GradedCard answer question
      else GradeForm answer question
  end.

(** The items of the panel for the selected session; no selection, and
    the empty id, give none. *)
Definition evaluation_panel (questions answers : list row)
    (selectedSession : option string) : list panel_item :=
  match selectedSession with
  | Some id =>
      if decide (id = "") then []
      else panel_item_of questions <$> getSessionAnswers answers id
  | None => []
  end.

Definition is_form (i : panel_item) : bool :=
  match i with GradeForm _ _ => true | _ => false end.

(** ** Vocabulary of the added properties *)

(** The rows of a table that a session and question select. *)
Definition answers_for (sessionId questionId : string) (t : list row) : list row :=
  filter (λ r, answer_of sessionId questionId r = true) t.

(** The rows of a table that belong to other sessions. *)
Definition answers_of_others (sessionId : string) (t : list row) : list row :=
  filter (λ r, r !! "session_id" ≠ Some (VStr sessionId)) t.

(** [r'] is the answer row [r] after [submitAnswer] has been called for
    the questions [questions] of the session [sessionId]: at most the text
    and the time of the update differ, and nothing does when [r] is not
    the answer of that session to one of those questions. *)
Definition answer_kept (sessionId : string) (questions : list string)
    (r r' : row) : Prop :=
  (∀ k, k ∉ ["student_answer"; "updated_at"] → r' !! k = r !! k)
  ∧ ((∀ q, q ∈ questions → answer_of sessionId q r = false) → r' = r).

(** The sessions of a table that a test and student select. *)
Definition sessions_for (testId studentId : string) (t : list row) : list row :=
  filter (λ r, session_of testId studentId r = true) t.

(** [r'] is [r] after an UPDATE event with the fields [n]: the id stays,
    a field the event lacks stays, and a record the event addresses takes
    every field the event has. *)
Definition merged_with (n r r' : row) : Prop :=
  r' !! "id" = r !! "id"
  ∧ (∀ k, n !! k = None → r' !! k = r !! k)
  ∧ (r !! "id" = n !! "id" → ∀ k v, n !! k = Some v → r' !! k = Some v)
  ∧ (r !! "id" ≠ n !! "id" → r' = r).

(** ** More stores used as examples *)

(** Two tests, one session each, both by the student [u1]. *)
Definition fetch_example : Db :=
  mkDb [ {[ "id" := VStr "s1"; "test_id" := VStr "t1"; "student_id" := VStr "u1" ]};
         {[ "id" := VStr "s2"; "test_id" := VStr "t2"; "student_id" := VStr "u1" ]} ]
       [ {[ "id" := VStr "a1"; "session_id" := VStr "s1" ]};
         {[ "id" := VStr "a2"; "session_id" := VStr "s2" ]} ]
       [ {[ "id" := VStr "u1"; "full_name" := VStr "Asha"; "email" := VStr "asha@x.in" ]} ].

(** The student [u1] has two sessions of the test [t1]. *)
Definition twice_enrolled : Db :=
  mkDb [ {[ "id" := VStr "s1"; "test_id" := VStr "t1"; "student_id" := VStr "u1" ]};
         {[ "id" := VStr "s2"; "test_id" := VStr "t1"; "student_id" := VStr "u1" ]} ]
       [] [].


Definition no_profile : Auth.AuthDb := Auth.mkAuthDb [] [].

(** * Properties *)

(** ** The change handlers *)

Section reconciler.
Implicit Types (s n o : row) (prev : list row).

Lemma spread_spread s n : spread (spread s n) n = spread s n.
Proof. unfold spread. by rewrite (assoc_L (∪)), (idemp_L (∪)). Qed.

Lemma spread_keeps_id_match s n :
  s !! "id" = n !! "id" → spread s n !! "id" = n !! "id".
Proof.
  intros Hid. unfold spread.
  destruct (n !! "id") as [v|] eqn:Hn.
  - by apply lookup_union_Some_l.
  - by rewrite lookup_union_r.
Qed.

(** The UPDATE branch, common to both channels. *)
Lemma merge_twice n prev :
  let f := λ s, if decide (s !! "id" = n !! "id") then spread s n else s in
  f <$> (f <$> prev) = f <$> prev.
Proof.
  intros f. rewrite <- list_fmap_compose. apply list_fmap_ext.
  intros _ s _. unfold f; simpl.
  destruct (decide (s !! "id" = n !! "id")) as [Hid|Hid].
  - rewrite decide_True by by apply spread_keeps_id_match.
    apply spread_spread.
  - by rewrite decide_False.
Qed.

Lemma merge_absent n prev :
  Forall (λ s, s !! "id" ≠ n !! "id") prev →
  (λ s, if decide (s !! "id" = n !! "id") then spread s n else s) <$> prev = prev.
Proof.
  induction 1 as [|s prev Hs _ IH]; [done|].
  rewrite fmap_cons, IH. by rewrite decide_False.
Qed.

(** The DELETE branch, common to both channels. *)
Lemma remove_twice o prev :
  filter (λ s, s !! "id" ≠ o !! "id") (filter (λ s, s !! "id" ≠ o !! "id") prev)
  = filter (λ s, s !! "id" ≠ o !! "id") prev.
Proof.
  induction prev as [|s prev IH]; [done|].
  rewrite filter_cons. destruct (decide (s !! "id" ≠ o !! "id")) as [H|H].
  - rewrite filter_cons, decide_True by done. by rewrite IH.
  - done.
Qed.
End reconciler.

Lemma on_session_insert net db n o prev :
  on_session_change net db (mkPayload INSERT n o) prev
  = prev ++ session_arrival net db n.
Proof.
  unfold on_session_change, session_arrival; simpl.
  destruct (fetch_session net db (n !! "id")); [done|]. by rewrite app_nil_r.
Qed.

(** C1, as the handlers have it: replaying an UPDATE or a DELETE event
    leaves either store as the first application left it; replaying an
    INSERT appends the arriving record once more, whether or not a record
    with its id is present. *)
Theorem replay_update_delete_idempotent (net : network) (db : Db) (n o : row)
    (prev : list row) :
  let upd := mkPayload UPDATE n o in
  let del := mkPayload DELETE n o in
  let ins := mkPayload INSERT n o in
  on_answer_change upd (on_answer_change upd prev) = on_answer_change upd prev
  ∧ on_answer_change del (on_answer_change del prev) = on_answer_change del prev
  ∧ on_session_change net db upd (on_session_change net db upd prev)
    = on_session_change net db upd prev
  ∧ on_session_change net db del (on_session_change net db del prev)
    = on_session_change net db del prev
  ∧ on_answer_change ins (on_answer_change ins prev)
    = on_answer_change ins prev ++ [n]
  ∧ on_session_change net db ins (on_session_change net db ins prev)
    = on_session_change net db ins prev ++ session_arrival net db n.
Proof.
  simpl. repeat split.
  - apply merge_twice.
  - apply remove_twice.
  - apply merge_twice.
  - apply remove_twice.
  - by rewrite !on_session_insert.
Qed.

(** C1 as stated fails: an INSERT event for the answer [a1], delivered
    twice, leaves two records with that id. *)
Lemma replay_insert_adds_second_record :
  let a1 : row := {[ "id" := VStr "a1" ]} in
  let ins := mkPayload INSERT a1 ∅ in
  on_answer_change ins [] = [a1]
  ∧ on_answer_change ins (on_answer_change ins []) = [a1; a1]
  ∧ on_answer_change ins (on_answer_change ins []) ≠ on_answer_change ins [].
Proof. simpl. repeat split. discriminate. Qed.

(** ** The statistics *)

Section stats.
Implicit Types (s a : row) (l : list row) (p : row → bool).

Lemma count_cons p s l : count p (s :: l) = b2z (p s) + count p l.
Proof.
  unfold count. rewrite filter_cons. case_decide as H.
  - rewrite H, length_cons. simpl. lia.
  - destruct (p s); [done|]. simpl. lia.
Qed.

Lemma count_negb p l : count p l + count (λ s, negb (p s)) l = Z.of_nat (length l).
Proof.
  induction l as [|s l IH]; [done|].
  rewrite !count_cons, length_cons, Nat2Z.inj_succ.
  destruct (p s); unfold b2z; simpl negb; lia.
Qed.

Lemma count_spec p (P : row → Prop) `{!∀ s, Decision (P s)} l :
  (∀ s, p s = true ↔ P s) → count p l = Z.of_nat (length (filter P l)).
Proof.
  intros Hp. unfold count. do 2 f_equal. by apply list_filter_iff.
Qed.

Lemma count_nonneg p l : 0 ≤ count p l.
Proof. unfold count. lia. Qed.

(** A status is one string: a session falls in at most one category. *)
Lemma one_category s :
  b2z (is_active s) + b2z (is_submitted s) + b2z (is_terminated s) ≤ 1.
Proof.
  unfold is_active, is_submitted, is_terminated, status_is, col_is.
  repeat case_bool_decide; simplify_eq; simpl; lia.
Qed.

Lemma categories_partition l :
  count is_active l + count is_submitted l + count is_terminated l
  + count uncategorised l = Z.of_nat (length l).
Proof.
  induction l as [|s l IH]; [done|].
  rewrite !count_cons, length_cons, Nat2Z.inj_succ.
  pose proof (one_category s) as H1.
  assert (Hu : uncategorised s
               = negb (is_active s || is_submitted s || is_terminated s)) by done.
  rewrite Hu.
  destruct (is_active s), (is_submitted s), (is_terminated s);
    unfold b2z in *; simpl negb; lia.
Qed.

Lemma count_pos p s l : s ∈ l → p s = true → 0 < count p l.
Proof.
  intros Hin Hp. induction Hin as [s l|s s' l _ IH].
  - rewrite count_cons, Hp. pose proof (count_nonneg p l). simpl. lia.
  - rewrite count_cons. specialize (IH Hp). destruct (p s'); simpl; lia.
Qed.
End stats.

(** C8: whatever the stores hold, the graded and the pending answers of
    [getLiveStats] add up to all answers; the graded ones are those whose
    [graded_by] is not null, the pending ones those whose [graded_by] is
    null. *)
Theorem graded_plus_pending_is_total (sessions answers : list row) :
  let st := getLiveStats sessions answers in
  gradedAnswers st + pendingGrading st = totalAnswers st
  ∧ totalAnswers st = Z.of_nat (length answers)
  ∧ gradedAnswers st
    = Z.of_nat (length (filter (λ a, a !! "graded_by" ≠ Some VNull) answers))
  ∧ pendingGrading st
    = Z.of_nat (length (filter (λ a, a !! "graded_by" = Some VNull) answers)).
Proof.
  simpl. split; [lia|]. split; [done|]. split.
  - apply count_spec. intros a. unfold is_graded. apply bool_decide_eq_true.
  - pose proof (count_negb is_graded answers) as Hsum.
    rewrite <- (count_spec (λ a, negb (is_graded a))).
    + lia.
    + intros a. unfold is_graded. rewrite negb_true_iff, bool_decide_eq_false.
      split; [apply dec_stable|]. intros H Hn. by apply Hn.
Qed.

(** C10: the three session counts of [getLiveStats] never exceed the
    total, and fall short of it as soon as the store holds a session whose
    status is none of active, in_progress, completed, submitted and
    terminated. *)
Theorem session_counts_bounded (sessions answers : list row) :
  let st := getLiveStats sessions answers in
  activeSessions st + submittedSessions st + terminatedSessions st
  ≤ totalSessions st
  ∧ ((∃ s, s ∈ sessions
        ∧ ∀ x, x ∈ ["active"; "in_progress"; "completed"; "submitted"; "terminated"]
               → s !! "status" ≠ Some (VStr x))
     → activeSessions st + submittedSessions st + terminatedSessions st
       < totalSessions st).
Proof.
  simpl. pose proof (categories_partition sessions) as Hpart.
  pose proof (count_nonneg uncategorised sessions) as H0.
  split; [lia|].
  intros (s & Hin & Hout).
  assert (Hun : uncategorised s = true).
  { unfold uncategorised, is_active, is_submitted, is_terminated, status_is, col_is.
    rewrite !bool_decide_eq_false_2; [done|apply Hout; set_solver..]. }
  pose proof (count_pos uncategorised s sessions Hin Hun). lia.
Qed.

Lemma session_counts_bounded_witness :
  let s1 : row := {[ "id" := VStr "s1"; "status" := VStr "not_started" ]} in
  let st := getLiveStats [s1] [] in
  activeSessions st + submittedSessions st + terminatedSessions st < totalSessions st.
Proof.
  intros s1.
  refine (proj2 (session_counts_bounded [s1] []) _).
  exists s1. split; [by left|].
  intros x Hx Hs. vm_compute in Hs. injection Hs as <-.
  repeat (apply elem_of_cons in Hx as [Hx|Hx]; [discriminate Hx|]).
  by apply elem_of_nil in Hx.
Defined.

(** ** Requests on a table *)

Section tables.
Implicit Types (r patch : row) (t : list row) (p : row → bool).

Lemma update_where_lookup patch p t (i : nat) :
  update_where patch p t !! i
  = (λ r, if p r then spread r patch else r) <$> (t !! i).
Proof. unfold update_where. apply list_lookup_fmap. Qed.

Lemma update_where_hit patch p t (i : nat) r :
  t !! i = Some r → p r = true →
  update_where patch p t !! i = Some (spread r patch).
Proof. intros Hi Hp. by rewrite update_where_lookup, Hi; simpl; rewrite Hp. Qed.

Lemma update_where_miss patch p t (i : nat) r :
  t !! i = Some r → p r = false → update_where patch p t !! i = Some r.
Proof. intros Hi Hp. by rewrite update_where_lookup, Hi; simpl; rewrite Hp. Qed.

Lemma update_where_none patch p t :
  (∀ r, r ∈ t → p r = false) → update_where patch p t = t.
Proof.
  intros H. unfold update_where. induction t as [|r t IH]; [done|].
  rewrite fmap_cons, IH by (intros; apply H; by right).
  by rewrite (H r) by by left.
Qed.

Lemma spread_lookup_patch r patch k v :
  patch !! k = Some v → spread r patch !! k = Some v.
Proof. intros H. unfold spread. by apply lookup_union_Some_l. Qed.

Lemma spread_lookup_kept r patch k :
  patch !! k = None → spread r patch !! k = r !! k.
Proof. intros H. unfold spread. by apply lookup_union_r. Qed.

Lemma col_is_true col x r : col_is col x r = true ↔ r !! col = Some (VStr x).
Proof. unfold col_is. apply bool_decide_eq_true. Qed.

Lemma col_is_false col x r : col_is col x r = false ↔ r !! col ≠ Some (VStr x).
Proof. unfold col_is. apply bool_decide_eq_false. Qed.

Lemma col_is_spread col x r patch :
  patch !! col = None → col_is col x (spread r patch) = col_is col x r.
Proof. intros H. unfold col_is. by rewrite spread_lookup_kept. Qed.
End tables.

Lemma with_answers_same db : with_answers db (tbl_answers db) = db.
Proof. by destruct db. Qed.

Lemma with_test_sessions_same db : with_test_sessions db (tbl_test_sessions db) = db.
Proof. by destruct db. Qed.

(** ** Grading *)

(** C4: when [gradeAnswer] succeeds, the answer under [answerId] holds the
    marks, the grader, the time of the call and [is_correct = (marks > 0)]
    (false for 0 marks, true for 5), its other fields are as before, and
    the answers under other ids are untouched. *)
Theorem gradeAnswer_writes_grade (net : network) (now answerId graderId : string)
    (marks : Z) (db db' : Db) (i : nat) (a : row) :
  gradeAnswer net now answerId marks graderId db = (true, db') →
  tbl_answers db !! i = Some a →
  (a !! "id" = Some (VStr answerId) →
     ∃ a', tbl_answers db' !! i = Some a'
       ∧ a' !! "marks_awarded" = Some (VNum marks)
       ∧ a' !! "is_correct" = Some (VBool (bool_decide (marks > 0)))
       ∧ a' !! "graded_by" = Some (VStr graderId)
       ∧ a' !! "graded_at" = Some (VStr now)
       ∧ (marks = 0 → a' !! "is_correct" = Some (VBool false))
       ∧ (marks = 5 → a' !! "is_correct" = Some (VBool true))
       ∧ ∀ k, k ∉ ["marks_awarded"; "is_correct"; "graded_by"; "graded_at"] →
              a' !! k = a !! k)
  ∧ (a !! "id" ≠ Some (VStr answerId) → tbl_answers db' !! i = Some a).
Proof.
  unfold gradeAnswer. destruct (net _); [done|].
  intros [= <-] Hi; simpl. split.
  - intros Hid. eexists. split.
    { apply update_where_hit; [done|]. by apply col_is_true. }
    repeat split; try by apply spread_lookup_patch.
    + intros ->. by apply spread_lookup_patch.
    + intros ->. by apply spread_lookup_patch.
    + intros k Hk. apply spread_lookup_kept. unfold grade_patch.
      rewrite !lookup_insert_ne, lookup_singleton_ne; [done|set_solver..].
  - intros Hid. apply update_where_miss; [done|]. by apply col_is_false.
Qed.

Lemma gradeAnswer_writes_grade_witness :
  ∃ a', tbl_answers (gradeAnswer reliable "t1" "a1" 5 "f1" graded_example).2 !! 0%nat
        = Some a'
    ∧ a' !! "is_correct" = Some (VBool true)
    ∧ a' !! "student_answer" = Some (VStr "42").
Proof.
  destruct (gradeAnswer_writes_grade reliable "t1" "a1" "f1" 5 graded_example
              (gradeAnswer reliable "t1" "a1" 5 "f1" graded_example).2 0
              {[ "id" := VStr "a1"; "student_answer" := VStr "42" ]}
              eq_refl eq_refl) as [Hhit _].
  destruct (Hhit eq_refl) as (a' & Ha' & _ & _ & _ & _ & _ & H5 & Hk).
  exists a'. split; [exact Ha'|]. split; [by apply H5|].
  rewrite Hk; [reflexivity|]. not_listed.
Defined.

(** No marks, no credit: the same call with 0 marks. *)
Example gradeAnswer_zero_marks :
  ∃ a', tbl_answers (gradeAnswer reliable "t1" "a1" 0 "f1" graded_example).2 !! 0%nat
        = Some a'
    ∧ a' !! "is_correct" = Some (VBool false)
    ∧ a' !! "graded_by" = Some (VStr "f1").
Proof. eexists. split; [reflexivity|]. by vm_compute. Qed.

(** C5, as the hook has it: grading an id that no answer carries changes
    no answer; the call reports failure exactly when the update request
    itself fails, and success otherwise. *)
Theorem gradeAnswer_unknown_id (net : network) (now answerId graderId : string)
    (marks : Z) (db : Db) :
  (∀ a, a ∈ tbl_answers db → a !! "id" ≠ Some (VStr answerId)) →
  gradeAnswer net now answerId marks graderId db
  = (negb (net (Req Update "answers" [answerId])), db).
Proof.
  intros Habs. unfold gradeAnswer. destruct (net _); [done|]. simpl.
  rewrite update_where_none, with_answers_same; [done|].
  intros a Ha. apply col_is_false. by apply Habs.
Qed.

Lemma gradeAnswer_unknown_id_witness :
  gradeAnswer reliable "t1" "a9" 5 "f1" graded_example = (true, graded_example).
Proof.
  apply (gradeAnswer_unknown_id reliable "t1" "a9" "f1" 5 graded_example).
  intros a Ha. apply list_elem_of_singleton in Ha as ->.
  vm_compute. discriminate.
Defined.

(** C5 as stated fails: no answer has the id [a9], and grading it returns
    [true]. *)
Lemma gradeAnswer_unknown_id_reports_success :
  (∀ a, a ∈ tbl_answers graded_example → a !! "id" ≠ Some (VStr "a9"))
  ∧ (gradeAnswer reliable "t1" "a9" 5 "f1" graded_example).1 = true
  ∧ (gradeAnswer reliable "t1" "a9" 5 "f1" graded_example).1 ≠ false.
Proof.
  split; [|by vm_compute].
  intros a Ha. apply list_elem_of_singleton in Ha as ->.
  vm_compute. discriminate.
Qed.

(** ** Termination and reinstatement *)

(** C9: [terminateStudent] leaves the session with the status terminated,
    and [allowContinue] after it leaves the same session with the status
    in_progress. *)
Theorem terminate_then_allow_continue (sessionId : string) (db : Db)
    (i : nat) (s : row) :
  tbl_test_sessions db !! i = Some s →
  s !! "id" = Some (VStr sessionId) →
  (∃ s1, tbl_test_sessions (terminateStudent sessionId db) !! i = Some s1
     ∧ s1 !! "status" = Some (VStr "terminated"))
  ∧ (∃ s2, tbl_test_sessions (allowContinue sessionId (terminateStudent sessionId db)) !! i
           = Some s2
       ∧ s2 !! "status" = Some (VStr "in_progress")).
Proof.
  intros Hi Hid.
  assert (H1 : tbl_test_sessions (terminateStudent sessionId db) !! i
               = Some (spread s {[ "status" := VStr "terminated" ]})).
  { simpl. apply update_where_hit; [done|]. by apply col_is_true. }
  split.
  - eexists. split; [exact H1|]. by apply spread_lookup_patch.
  - eexists. split.
    + simpl. apply update_where_hit; [exact H1|].
      rewrite col_is_spread by done. by apply col_is_true.
    + by apply spread_lookup_patch.
Qed.

Lemma terminate_then_allow_continue_witness :
  let s1 : row := {[ "id" := VStr "s1"; "status" := VStr "in_progress" ]} in
  let db := mkDb [s1] [] [] in
  ∃ s2, tbl_test_sessions (allowContinue "s1" (terminateStudent "s1" db)) !! 0%nat
        = Some s2
    ∧ s2 !! "status" = Some (VStr "in_progress").
Proof.
  intros s1 db.
  exact (proj2 (terminate_then_allow_continue "s1" db 0 s1 eq_refl eq_refl)).
Defined.

(** ** Sessions of a student *)

(** X30: when the store answers the lookup and holds exactly one session
    [s] for the pair, [getOrCreateSession] returns [s] and leaves the
    store as it is.  When it holds none and the insert goes through, the
    session returned is new, active and started at the time of the call,
    it is the one row added to the store, and calling again returns that
    same session and adds nothing. *)
Theorem getOrCreateSession_idempotent (net : network) (now testId studentId : string)
    (db : Db) :
  net (Req Select "test_sessions" [testId; studentId]) = false →
  let mine := λ r, session_of testId studentId r = true in
  (∀ s, filter mine (tbl_test_sessions db) = [s] →
        getOrCreateSession net now testId studentId db = (Returned s, db))
  ∧ (filter mine (tbl_test_sessions db) = [] →
     net (Req Insert "test_sessions" [testId; studentId]) = false →
     ∃ s db',
       getOrCreateSession net now testId studentId db = (Returned s, db')
       ∧ tbl_test_sessions db' = tbl_test_sessions db ++ [s]
       ∧ tbl_answers db' = tbl_answers db
       ∧ s !! "test_id" = Some (VStr testId)
       ∧ s !! "student_id" = Some (VStr studentId)
       ∧ s !! "status" = Some (VStr "active")
       ∧ s !! "started_at" = Some (VStr now)
       ∧ ∀ later, getOrCreateSession net later testId studentId db'
                  = (Returned s, db')).
Proof.
  intros Hsel mine. split.
  - intros s Hs. unfold getOrCreateSession, select_single.
    rewrite Hsel. fold mine. by rewrite Hs.
  - intros Hnone Hins. eexists _, _. split.
    { unfold getOrCreateSession, select_single.
      rewrite Hsel, Hins. fold mine. rewrite Hnone. reflexivity. }
    repeat split.
    intros later. unfold getOrCreateSession, select_single. rewrite Hsel.
    simpl. fold mine. unfold insert_row.
    rewrite filter_app, Hnone, filter_cons, decide_True; [done|].
    unfold mine, session_of. apply andb_true_iff. by split; apply col_is_true.
Qed.

Lemma getOrCreateSession_idempotent_witness :
  ∃ s db',
    getOrCreateSession reliable "t1" "test1" "stu1" (mkDb [] [] []) = (Returned s, db')
    ∧ s !! "status" = Some (VStr "active")
    ∧ getOrCreateSession reliable "t2" "test1" "stu1" db' = (Returned s, db').
Proof.
  destruct (proj2 (getOrCreateSession_idempotent reliable "t1" "test1" "stu1"
                     (mkDb [] [] []) eq_refl) eq_refl eq_refl)
    as (s & db' & Hcall & _ & _ & _ & _ & Hstatus & _ & Hagain).
  exists s, db'. split; [exact Hcall|]. split; [exact Hstatus|apply Hagain].
Defined.

(** C7 fails where the lookup is refused.  The store holds one session
    [s1] of the test [t1] for the student [u1].  The error of the lookup
    is never read: the hook goes on to insert, and returns a new active
    session in place of [s1], so the pair has two.  From then on no
    lookup finds a single session, and the next call, with every request
    answered, returns yet another new session and the pair has three. *)
Lemma getOrCreateSession_adds_to_existing :
  let s1 : row := {[ "id" := VStr "s1"; "test_id" := VStr "t1";
                      "student_id" := VStr "u1" ]} in
  let net := refuses (Req Select "test_sessions" ["t1"; "u1"]) in
  let res := getOrCreateSession net "now" "t1" "u1" fetch_example in
  let again := getOrCreateSession reliable "later" "t1" "u1" res.2 in
  sessions_for "t1" "u1" (tbl_test_sessions fetch_example) = [s1]
  ∧ (∃ s, res.1 = Returned s ∧ s ≠ s1
       ∧ s !! "status" = Some (VStr "active")
       ∧ s !! "started_at" = Some (VStr "now")
       ∧ sessions_for "t1" "u1" (tbl_test_sessions res.2) = [s1; s])
  ∧ (∃ s, again.1 = Returned s
       ∧ s !! "started_at" = Some (VStr "later")
       ∧ length (sessions_for "t1" "u1" (tbl_test_sessions again.2)) = 3%nat).
Proof.
  intros s1 net res again.
  split; [by vm_compute|]. split.
  - exists (stored (session_values "now" "t1" "u1") (tbl_test_sessions fetch_example)).
    split; [reflexivity|]. split.
    { intros H. apply (f_equal (λ m : row, m !! "status")) in H.
      vm_compute in H. discriminate. }
    repeat split; by vm_compute.
  - exists (stored (session_values "later" "t1" "u1") (tbl_test_sessions res.2)).
    split; [by vm_compute|]. split; by vm_compute.
Qed.

(** ** Submitting answers *)

Section primary_keys.
Implicit Types (r patch : row) (t : list row) (p : row → bool).

Lemma row_key_Some r k : row_key r = Some k ↔ r !! "id" = Some (VStr k).
Proof.
  unfold row_key. destruct (r !! "id") as [[]|]; naive_solver.
Qed.

Lemma row_key_spread r patch : patch !! "id" = None → row_key (spread r patch) = row_key r.
Proof. intros H. unfold row_key. by rewrite spread_lookup_kept. Qed.

Lemma keys_cons r t :
  keys (r :: t) = match row_key r with Some k => k :: keys t | None => keys t end.
Proof. done. Qed.

Lemma keys_update_where patch p t :
  patch !! "id" = None → keys (update_where patch p t) = keys t.
Proof.
  intros H. induction t as [|r t IH]; [done|].
  unfold update_where in *. rewrite fmap_cons, !keys_cons, IH.
  by destruct (p r); [rewrite row_key_spread|].
Qed.

Lemma new_key_fresh t : new_key t ∉ keys t.
Proof. apply infinite_is_fresh. Qed.

Lemma row_key_stored r t : row_key (stored r t) = Some (new_key t).
Proof. apply row_key_Some. unfold stored. apply lookup_insert_eq. Qed.

Lemma keys_insert_row r t : keys (insert_row r t) = keys t ++ [new_key t].
Proof.
  unfold keys, insert_row. rewrite omap_app. f_equal.
  simpl. by rewrite row_key_stored.
Qed.

Lemma NoDup_keys_insert_row r t : NoDup (keys t) → NoDup (keys (insert_row r t)).
Proof.
  intros H. rewrite keys_insert_row. apply NoDup_app. split; [done|]. split.
  - intros k Hk Hk'. apply list_elem_of_singleton in Hk' as ->.
    by apply (new_key_fresh t).
  - apply NoDup_singleton.
Qed.

(** Under a primary key, two rows of a table with the same key are the
    same row. *)
Lemma same_key_same_row t r1 r2 k :
  NoDup (keys t) → r1 ∈ t → r2 ∈ t →
  row_key r1 = Some k → row_key r2 = Some k → r1 = r2.
Proof.
  induction t as [|r t IH]; intros Hnd H1 H2 K1 K2.
  - by apply elem_of_nil in H1.
  - rewrite keys_cons in Hnd.
    apply elem_of_cons in H1 as [->|H1], H2 as [->|H2]; [done|..].
    + rewrite K1 in Hnd. apply NoDup_cons in Hnd as [Hnot _].
      destruct Hnot. apply list_elem_of_omap. eauto.
    + rewrite K2 in Hnd. apply NoDup_cons in Hnd as [Hnot _].
      destruct Hnot. apply list_elem_of_omap. eauto.
    + apply IH; try done. destruct (row_key r); [|done].
      by apply NoDup_cons in Hnd as [_ ?].
Qed.

Lemma single_Some (l : list row) r : single l = Some r ↔ l = [r].
Proof. destruct l as [|? [|? ?]]; naive_solver. Qed.

Lemma select_single_Some p t r :
  select_single p t = Some r → r ∈ t ∧ p r = true.
Proof.
  unfold select_single. intros H%single_Some.
  assert (Hin : r ∈ filter (λ r, p r = true) t) by (rewrite H; by left).
  by apply list_elem_of_filter in Hin as [? ?].
Qed.

Lemma elem_of_update_where_hit patch p t r :
  r ∈ t → p r = true → spread r patch ∈ update_where patch p t.
Proof.
  intros Hin Hp. unfold update_where.
  apply list_elem_of_fmap. exists r. by rewrite Hp.
Qed.

Lemma elem_of_update_where_miss patch p t r :
  r ∈ t → p r = false → r ∈ update_where patch p t.
Proof.
  intros Hin Hp. unfold update_where.
  apply list_elem_of_fmap. exists r. by rewrite Hp.
Qed.

(** An update that leaves a predicate's columns alone selects as many
    rows after as before. *)
Lemma filter_update_where_length patch p t (q : row → bool) :
  (∀ r, q (spread r patch) = q r) →
  length (filter (λ r, q r = true) (update_where patch p t))
  = length (filter (λ r, q r = true) t).
Proof.
  intros Hq. unfold update_where. induction t as [|r t IH]; [done|].
  rewrite fmap_cons, !filter_cons.
  assert (Hr : q (if p r then spread r patch else r) = q r)
    by by destruct (p r).
  rewrite Hr. case_decide; simpl; by rewrite IH.
Qed.
End primary_keys.

Section submitAnswer.
Variables (net : network) (now sessionId : string).
Implicit Types (db : Db) (questionId answer : string).

Lemma stored_answer_fields questionId answer t :
  let r := stored (answer_values sessionId questionId answer) t in
  r !! "session_id" = Some (VStr sessionId)
  ∧ r !! "question_id" = Some (VStr questionId)
  ∧ r !! "student_answer" = Some (VStr answer).
Proof. unfold stored, answer_values. by repeat split; simplify_map_eq. Qed.

(** The three ways a call can end. *)
Lemma submitAnswer_cases questionId answer db :
  let res := submitAnswer net now sessionId questionId answer db in
  (res.1 = false ∧ res.2 = db)
  ∨ (∃ ex id, ex ∈ tbl_answers db
       ∧ answer_of sessionId questionId ex = true
       ∧ row_key ex = Some id
       ∧ res = (true, with_answers db
                  (update_where (answer_patch now answer) (col_is "id" id)
                     (tbl_answers db))))
  ∨ ((net (Req Select "answers" [sessionId; questionId]) = true
      ∨ select_single (answer_of sessionId questionId) (tbl_answers db) = None)
     ∧ res = (true, with_answers db
                (insert_row (answer_values sessionId questionId answer) (tbl_answers db)))).
Proof.
  unfold submitAnswer.
  destruct (net (Req Select _ _)) eqn:Hsel.
  - destruct (net (Req Insert _ _)); [by left|]. right; right. by split; [left|].
  - destruct (select_single _ _) as [ex|] eqn:Hex.
    + apply select_single_Some in Hex as [Hin Hp].
      destruct (row_key ex) as [id|] eqn:Hid; [|by left].
      destruct (net (Req Update _ _)); [by left|].
      right; left. by exists ex, id.
    + destruct (net (Req Insert _ _)); [by left|]. right; right. by split; [right|].
Qed.

Lemma submitAnswer_sessions questionId answer db :
  tbl_test_sessions (submitAnswer net now sessionId questionId answer db).2
  = tbl_test_sessions db.
Proof.
  destruct (submitAnswer_cases questionId answer db)
    as [[_ ->]|[(ex & id & _ & _ & _ & ->)|[_ ->]]]; done.
Qed.

Lemma submitAnswer_keys questionId answer db :
  NoDup (keys (tbl_answers db)) →
  NoDup (keys (tbl_answers (submitAnswer net now sessionId questionId answer db).2)).
Proof.
  intros Hnd. destruct (submitAnswer_cases questionId answer db)
    as [[_ ->]|[(ex & id & _ & _ & _ & ->)|[_ ->]]]; simpl; [done|..].
  - by rewrite keys_update_where.
  - by apply NoDup_keys_insert_row.
Qed.

(** A call that reports success leaves the answer in the table. *)
Lemma submitAnswer_has questionId answer db db' :
  submitAnswer net now sessionId questionId answer db = (true, db') →
  has_answer sessionId questionId answer (tbl_answers db').
Proof.
  intros Hcall. destruct (submitAnswer_cases questionId answer db)
    as [[Hf _]|[(ex & id & Hin & Hp & Hid & Hres)|[_ Hres]]].
  - by rewrite Hcall in Hf.
  - rewrite Hcall in Hres. injection Hres as ->. simpl.
    apply andb_true_iff in Hp as [Hs Hq].
    exists (spread ex (answer_patch now answer)). split.
    { apply elem_of_update_where_hit; [done|].
      apply col_is_true. by apply row_key_Some. }
    rewrite !spread_lookup_kept by done.
    split; [by apply col_is_true|]. split; [by apply col_is_true|].
    by apply spread_lookup_patch.
  - rewrite Hcall in Hres. injection Hres as ->. simpl.
    exists (stored (answer_values sessionId questionId answer) (tbl_answers db)).
    split; [unfold insert_row; apply elem_of_app; right; by left|].
    apply stored_answer_fields.
Qed.

(** A call for another question leaves the answer in the table. *)
Lemma submitAnswer_keeps questionId answer other answer' db :
  NoDup (keys (tbl_answers db)) →
  other ≠ questionId →
  has_answer sessionId questionId answer (tbl_answers db) →
  has_answer sessionId questionId answer
    (tbl_answers (submitAnswer net now sessionId other answer' db).2).
Proof.
  intros Hnd Hne (r & Hin & Hs & Hq & Ha).
  destruct (submitAnswer_cases other answer' db)
    as [[_ ->]|[(ex & id & Hex & Hp & Hid & ->)|[_ ->]]]; simpl.
  - by exists r.
  - exists r. split; [|done]. apply elem_of_update_where_miss; [done|].
    apply col_is_false. intros Hrid%row_key_Some.
    assert (r = ex) as -> by by eapply same_key_same_row.
    apply andb_true_iff in Hp as [_ Hq'%col_is_true]. congruence.
  - exists r. split; [|done]. unfold insert_row. apply elem_of_app. by left.
Qed.

(** With the lookup answered, a call keeps one answer per session and
    question. *)
Lemma submitAnswer_one_per_question questionId answer db :
  net (Req Select "answers" [sessionId; questionId]) = false →
  one_per_question (tbl_answers db) →
  one_per_question
    (tbl_answers (submitAnswer net now sessionId questionId answer db).2).
Proof.
  intros Hsel Hone. destruct (submitAnswer_cases questionId answer db)
    as [[_ ->]|[(ex & id & _ & _ & _ & ->)|[[Hsel'|Hnone] ->]]]; simpl; [done|..].
  - intros s q. rewrite filter_update_where_length; [apply Hone|].
    intros r. unfold answer_of. by rewrite !col_is_spread.
  - congruence.
  - intros s q. unfold insert_row. rewrite filter_app, length_app.
    pose proof (Hone s q) as Hsq.
    destruct (decide (s = sessionId ∧ q = questionId)) as [[-> ->]|Hother].
    + unfold select_single in Hnone.
      destruct (filter _ (tbl_answers db)) as [|r1 [|r2 l]];
        [|done|simpl in Hsq; lia].
      simpl. rewrite filter_cons. case_decide; simpl; lia.
    + rewrite filter_cons, decide_False; [simpl; lia|].
      intros [Hs%col_is_true Hq%col_is_true]%andb_true_iff.
      destruct (stored_answer_fields questionId answer (tbl_answers db))
        as (Fs & Fq & _).
      apply Hother. split; congruence.
Qed.
End submitAnswer.

Section submitAnswers.
Variables (net : network) (clock : string → string) (sessionId : string).
Implicit Types (db : Db) (entries : list (string * string)).

Lemma submitAnswers_cons questionId answer entries db :
  submitAnswers net clock sessionId ((questionId, answer) :: entries) db
  = let first := submitAnswer net (clock questionId) sessionId questionId answer db in
    let others := submitAnswers net clock sessionId entries first.2 in
    (first.1 :: others.1, others.2).
Proof.
  simpl. destruct (submitAnswer _ _ _ _ _ _) as [ok db1]; simpl.
  by destruct (submitAnswers _ _ _ _ _).
Qed.

(** Every entry is attempted, whatever became of the ones before it. *)
Lemma submitAnswers_length entries db :
  length (submitAnswers net clock sessionId entries db).1 = length entries.
Proof.
  revert db. induction entries as [|[q a] entries IH]; intros db; [done|].
  rewrite submitAnswers_cons; simpl. by rewrite IH.
Qed.

Lemma submitAnswers_sessions entries db :
  tbl_test_sessions (submitAnswers net clock sessionId entries db).2
  = tbl_test_sessions db.
Proof.
  revert db. induction entries as [|[q a] entries IH]; intros db; [done|].
  rewrite submitAnswers_cons; simpl. by rewrite IH, submitAnswer_sessions.
Qed.

Lemma submitAnswers_keys entries db :
  NoDup (keys (tbl_answers db)) →
  NoDup (keys (tbl_answers (submitAnswers net clock sessionId entries db).2)).
Proof.
  revert db. induction entries as [|[q a] entries IH]; intros db Hnd; [done|].
  rewrite submitAnswers_cons; simpl. by apply IH, submitAnswer_keys.
Qed.

Lemma submitAnswers_keeps questionId answer entries db :
  NoDup (keys (tbl_answers db)) →
  questionId ∉ entries.*1 →
  has_answer sessionId questionId answer (tbl_answers db) →
  has_answer sessionId questionId answer
    (tbl_answers (submitAnswers net clock sessionId entries db).2).
Proof.
  revert db. induction entries as [|[q a] entries IH]; intros db Hnd Hq Hhas;
    [done|].
  rewrite fmap_cons in Hq. apply not_elem_of_cons in Hq as [Hne Hq].
  rewrite submitAnswers_cons; simpl. apply IH; [|done|].
  - by apply submitAnswer_keys.
  - by apply submitAnswer_keeps.
Qed.

Lemma submitAnswers_has entries db :
  NoDup (keys (tbl_answers db)) →
  NoDup entries.*1 →
  Forall (λ ok, ok = true) (submitAnswers net clock sessionId entries db).1 →
  ∀ questionId answer, (questionId, answer) ∈ entries →
    has_answer sessionId questionId answer
      (tbl_answers (submitAnswers net clock sessionId entries db).2).
Proof.
  revert db. induction entries as [|[q a] entries IH];
    intros db Hnd Hent Hok questionId answer Hin.
  { by apply elem_of_nil in Hin. }
  rewrite fmap_cons in Hent. apply NoDup_cons in Hent as [Hq Hent].
  rewrite submitAnswers_cons in Hok |- *; simpl in *.
  apply Forall_cons in Hok as [Hfirst Hok].
  pose proof (submitAnswer_keys net (clock q) sessionId q a db Hnd) as Hnd1.
  apply elem_of_cons in Hin as [[= -> ->]|Hin].
  - apply submitAnswers_keeps; [done..|].
    apply (submitAnswer_has net (clock q) sessionId q a db).
    by destruct (submitAnswer _ _ _ _ _ _) as [? ?]; simpl in *; subst.
  - by apply IH.
Qed.

Lemma submitAnswers_one_per_question entries db :
  (∀ questionId, net (Req Select "answers" [sessionId; questionId]) = false) →
  one_per_question (tbl_answers db) →
  one_per_question (tbl_answers (submitAnswers net clock sessionId entries db).2).
Proof.
  intros Hsel. revert db.
  induction entries as [|[q a] entries IH]; intros db Hone; [done|].
  rewrite submitAnswers_cons; simpl.
  by apply IH, submitAnswer_one_per_question.
Qed.
End submitAnswers.

Lemma submitTest_unfold net clock now sessionId answers forced db :
  submitTest net clock now sessionId answers forced db
  = let db1 := (submitAnswers net clock sessionId (map_to_list answers) db).2 in
    if net (Req Update "test_sessions" [sessionId]) then (false, db1)
    else (true, with_test_sessions db1
            (update_where (status_patch now forced) (col_is "id" sessionId)
               (tbl_test_sessions db1))).
Proof. unfold submitTest. by destruct (submitAnswers _ _ _ _ _). Qed.

(** What [submitTest] reports is decided by the status write alone. *)
Lemma submitTest_result net clock now sessionId answers forced db :
  (submitTest net clock now sessionId answers forced db).1
  = negb (net (Req Update "test_sessions" [sessionId])).
Proof. rewrite submitTest_unfold; simpl. by destruct (net _). Qed.

(** C6: when every answer write of [submitTest] and its status write
    succeed, the session has the status terminated (forced) or completed
    (not forced) and is stamped with the time of the call, other sessions
    are as before, and the answers table holds each entry's text for its
    question under this session.  Where the store answers the lookups and
    had one answer per session and question, it still has. *)
Theorem submitTest_completes (net : network) (clock : string → string)
    (now sessionId : string) (answers : gmap string string) (forced : bool)
    (db db' : Db) :
  NoDup (keys (tbl_answers db)) →
  Forall (λ ok, ok = true)
    (submitAnswers net clock sessionId (map_to_list answers) db).1 →
  submitTest net clock now sessionId answers forced db = (true, db') →
  (∀ (i : nat) s, tbl_test_sessions db !! i = Some s →
     (s !! "id" = Some (VStr sessionId) →
        ∃ s', tbl_test_sessions db' !! i = Some s'
          ∧ s' !! "status"
            = Some (VStr (if forced then "terminated" else "completed"))
          ∧ s' !! "submitted_at" = Some (VStr now)
          ∧ ∀ k, k ∉ ["status"; "submitted_at"] → s' !! k = s !! k)
     ∧ (s !! "id" ≠ Some (VStr sessionId) → tbl_test_sessions db' !! i = Some s))
  ∧ (∀ questionId answer, answers !! questionId = Some answer →
       has_answer sessionId questionId answer (tbl_answers db'))
  ∧ ((∀ questionId, net (Req Select "answers" [sessionId; questionId]) = false) →
     one_per_question (tbl_answers db) → one_per_question (tbl_answers db')).
Proof.
  intros Hnd Hok. rewrite submitTest_unfold; simpl.
  destruct (net (Req Update _ _)); [done|]. intros [= <-]; simpl.
  rewrite submitAnswers_sessions. repeat split.
  - intros Hid. eexists. split.
    { apply update_where_hit; [done|]. by apply col_is_true. }
    split; [by apply spread_lookup_patch|]. split; [by apply spread_lookup_patch|].
    intros k Hk. apply spread_lookup_kept. unfold status_patch.
    rewrite lookup_insert_ne, lookup_singleton_ne; [done|set_solver..].
  - intros Hid. apply update_where_miss; [done|]. by apply col_is_false.
  - intros questionId answer Hin. apply submitAnswers_has; [done| |done|].
    + apply NoDup_fst_map_to_list.
    + by apply elem_of_map_to_list.
  - intros Hsel Hone. by apply submitAnswers_one_per_question.
Qed.

Lemma submitTest_completes_witness :
  let db' := (submitTest reliable (λ _, "t0") "t1" "s1" {[ "q1" := "42" ]} false sitting).2 in
  (∃ s', tbl_test_sessions db' !! 0%nat = Some s'
     ∧ s' !! "status" = Some (VStr "completed")
     ∧ s' !! "submitted_at" = Some (VStr "t1"))
  ∧ has_answer "s1" "q1" "42" (tbl_answers db').
Proof.
  intros db'.
  assert (Hkeys : NoDup (keys (tbl_answers sitting))) by apply NoDup_singleton.
  assert (Hoks : Forall (λ ok, ok = true)
            (submitAnswers reliable (λ _, "t0") "s1" (map_to_list {[ "q1" := "42" ]}) sitting).1).
  { rewrite map_to_list_singleton. by repeat constructor. }
  assert (Hcall : submitTest reliable (λ _, "t0") "t1" "s1" {[ "q1" := "42" ]} false sitting
                  = (true, db')).
  { rewrite submitTest_unfold. reflexivity. }
  destruct (submitTest_completes reliable (λ _, "t0") "t1" "s1" {[ "q1" := "42" ]} false
              sitting db' Hkeys Hoks Hcall) as (Hsession & Hanswers & _).
  split.
  - destruct (Hsession 0%nat {[ "id" := VStr "s1"; "status" := VStr "active" ]}
                eq_refl) as [Hhit _].
    destruct (Hhit eq_refl) as (s' & Hs' & Hstatus & Hat & _).
    by exists s'.
  - apply Hanswers. apply lookup_singleton_eq.
Defined.

(** ** A failed answer write *)

(** C3, on a store where session [s1] has no answer yet and the insert of
    its answer to [q1] is refused: [submitAnswer] reports the failure, the
    answer to [q2] is written all the same, and [submitTest] marks the
    session completed and returns [true]. *)
Theorem submitTest_hides_failed_answer :
  let net := refuses (Req Insert "answers" ["s1"; "q1"]) in
  let db := mkDb [ {[ "id" := VStr "s1"; "status" := VStr "active" ]} ] [] [] in
  let answers : gmap string string := {[ "q1" := "42"; "q2" := "7" ]} in
  let res := submitTest net (λ _, "t0") "t1" "s1" answers false db in
  submitAnswer net "t0" "s1" "q1" "42" db = (false, db)
  ∧ false ∈ (submitAnswers net (λ _, "t0") "s1" (map_to_list answers) db).1
  ∧ res.1 = true
  ∧ tbl_answers res.2
    = [ {[ "id" := VStr (new_key []); "session_id" := VStr "s1";
           "question_id" := VStr "q2"; "student_answer" := VStr "7" ]} ]
  ∧ tbl_test_sessions res.2
    = [ {[ "id" := VStr "s1"; "status" := VStr "completed";
           "submitted_at" := VStr "t1" ]} ].
Proof.
  intros net db answers res.
  split; [reflexivity|].
  split; [vm_compute; set_solver|].
  split; [by vm_compute|].
  split; by vm_compute.
Qed.

(** * Further properties *)

(** ** The change handlers, one event after another *)

Section events.
Implicit Types (n o u : row) (prev : list row).

Lemma merge_merged_with n prev :
  Forall2 (merged_with n) prev
    ((λ s, if decide (s !! "id" = n !! "id") then spread s n else s) <$> prev).
Proof.
  apply Forall2_fmap_r, Forall_Forall2_diag, Forall_forall. intros r _.
  unfold merged_with; simpl.
  destruct (decide (r !! "id" = n !! "id")) as [Hid|Hid].
  - split; [rewrite spread_keeps_id_match; done|].
    split; [intros k Hk; by apply spread_lookup_kept|].
    split; [intros _ k v Hk; by apply spread_lookup_patch|done].
  - done.
Qed.

Lemma merge_compose u1 u2 prev :
  u1 !! "id" = u2 !! "id" →
  (λ s, if decide (s !! "id" = u2 !! "id") then spread s u2 else s)
    <$> ((λ s, if decide (s !! "id" = u1 !! "id") then spread s u1 else s) <$> prev)
  = (λ s, if decide (s !! "id" = spread u1 u2 !! "id") then spread s (spread u1 u2) else s)
      <$> prev.
Proof.
  intros Hid. rewrite <- list_fmap_compose. apply list_fmap_ext.
  intros _ s _; simpl.
  assert (H12 : spread u1 u2 !! "id" = u2 !! "id")
    by by apply spread_keeps_id_match.
  rewrite H12, <- Hid.
  destruct (decide (s !! "id" = u1 !! "id")) as [Hs|Hs].
  - rewrite decide_True by by apply spread_keeps_id_match.
    unfold spread. by rewrite (assoc_L (∪)).
  - by rewrite decide_False.
Qed.

Lemma remove_after_append o prev (l : list row) :
  Forall (λ r, r !! "id" = o !! "id") l →
  filter (λ s, s !! "id" ≠ o !! "id") (prev ++ l)
  = filter (λ s, s !! "id" ≠ o !! "id") prev.
Proof.
  intros Hl. rewrite filter_app.
  assert (Hnil : filter (λ s, s !! "id" ≠ o !! "id") l = []).
  { induction Hl as [|r l Hr _ IH]; [done|].
    by rewrite filter_cons, decide_False by (intros H; by apply H). }
  by rewrite Hnil, app_nil_r.
Qed.

Lemma remove_absent o prev :
  Forall (λ s, s !! "id" ≠ o !! "id") prev →
  filter (λ s, s !! "id" ≠ o !! "id") prev = prev.
Proof.
  induction 1 as [|s prev Hs _ IH]; [done|].
  by rewrite filter_cons, decide_True, IH.
Qed.
End events.

(** The record the session INSERT handler appends carries the id of the
    event. *)
Lemma session_arrival_id net db n :
  Forall (λ r, r !! "id" = n !! "id") (session_arrival net db n).
Proof.
  unfold session_arrival, fetch_session.
  destruct (n !! "id") as [[| | |i|]|]; try by constructor.
  destruct (net _); [by constructor|].
  destruct (select_single _ _) as [s|] eqn:Hs; simpl; [|by constructor].
  apply select_single_Some in Hs as [_ Hid%col_is_true].
  constructor; [|by constructor].
  rewrite lookup_insert_eq. unfold set_field.
  rewrite lookup_insert_ne by done. by rewrite lookup_insert_ne.
Qed.

(** C2, as the handlers have it: an UPDATE event whose id no record of the
    store carries leaves either store as it is.  In the answer store,
    UPDATE then the matching INSERT ends with the inserted row as it
    arrived, INSERT then UPDATE ends with that row merged with the update,
    and the two agree exactly when the inserted row already holds the
    fields of the update.  In the session store the INSERT appends the
    session as read back from the table, if it is read back: UPDATE then
    INSERT ends with that record, INSERT then UPDATE with that record
    merged with the update, and the two agree exactly when nothing was
    read back or the record read back already holds the fields of the
    update. *)
Theorem update_of_absent_id_is_dropped (net : network) (db : Db) (u i : row)
    (prev : list row) :
  Forall (λ a, a !! "id" ≠ u !! "id") prev →
  i !! "id" = u !! "id" →
  let upd := mkPayload UPDATE u ∅ in
  let ins := mkPayload INSERT i ∅ in
  let arrived := session_arrival net db i in
  (on_answer_change upd prev = prev
   ∧ on_answer_change ins (on_answer_change upd prev) = prev ++ [i]
   ∧ on_answer_change upd (on_answer_change ins prev) = prev ++ [spread i u]
   ∧ (on_answer_change ins (on_answer_change upd prev)
      = on_answer_change upd (on_answer_change ins prev) ↔ u ⊆ i))
  ∧ (on_session_change net db upd prev = prev
     ∧ on_session_change net db ins (on_session_change net db upd prev)
       = prev ++ arrived
     ∧ on_session_change net db upd (on_session_change net db ins prev)
       = prev ++ ((λ s, spread s u) <$> arrived)
     ∧ (on_session_change net db ins (on_session_change net db upd prev)
        = on_session_change net db upd (on_session_change net db ins prev)
        ↔ Forall (λ s, u ⊆ s) arrived)).
Proof.
  intros Habs Hid upd ins arrived.
  assert (Hsub : ∀ s : row, spread s u = s ↔ u ⊆ s).
  { intros s. unfold spread. split.
    - intros <-. apply map_union_subseteq_l.
    - apply map_subseteq_union. }
  split.
  - assert (Hu : on_answer_change upd prev = prev) by by apply merge_absent.
    assert (Hi : ∀ l, on_answer_change ins l = l ++ [i]) by done.
    assert (Hiu : on_answer_change upd (prev ++ [i]) = prev ++ [spread i u]).
    { unfold on_answer_change, upd; simpl. rewrite fmap_app, merge_absent by done.
      rewrite list_fmap_singleton. by rewrite decide_True. }
    rewrite Hu, !Hi, Hiu. repeat split; try done.
    + intros Heq%app_inv_head. injection Heq as Heq. by apply Hsub.
    + intros Heq%Hsub. by rewrite Heq.
  - assert (Hu : on_session_change net db upd prev = prev) by by apply merge_absent.
    assert (Hi : ∀ l, on_session_change net db ins l = l ++ arrived)
      by (intros l; apply on_session_insert).
    assert (Harr : (λ s, if decide (s !! "id" = u !! "id") then spread s u else s)
                     <$> arrived = (λ s, spread s u) <$> arrived).
    { apply Forall_fmap_ext. rewrite <- Hid.
      eapply Forall_impl; [apply session_arrival_id|].
      intros s Hs; simpl. by rewrite decide_True. }
    assert (Hiu : on_session_change net db upd (prev ++ arrived)
                  = prev ++ ((λ s, spread s u) <$> arrived)).
    { unfold on_session_change, upd; simpl.
      by rewrite fmap_app, merge_absent, Harr. }
    rewrite Hu, !Hi, Hiu. repeat split; try done.
    + intros Heq%app_inv_head. rewrite <- (list_fmap_id arrived) in Heq at 1.
      apply Forall_fmap_ext in Heq. eapply Forall_impl; [exact Heq|].
      intros s Hs; simpl in Hs. by apply Hsub.
    + intros Hall. f_equal. rewrite <- (list_fmap_id arrived) at 1.
      apply Forall_fmap_ext. eapply Forall_impl; [exact Hall|].
      intros s Hs; simpl. symmetry. by apply Hsub.
Qed.

Lemma update_of_absent_id_is_dropped_witness :
  let a0 : row := {[ "id" := VStr "a0" ]} in
  let u : row := {[ "id" := VStr "a1"; "student_answer" := VStr "y" ]} in
  on_answer_change (mkPayload UPDATE u ∅) [a0] = [a0]
  ∧ on_session_change reliable fetch_example (mkPayload UPDATE u ∅) [a0] = [a0].
Proof.
  intros a0 u.
  assert (Habs : Forall (λ a : row, a !! "id" ≠ u !! "id") [a0]).
  { repeat constructor. vm_compute. discriminate. }
  assert (Hid : ({[ "id" := VStr "a1" ]} : row) !! "id" = u !! "id") by reflexivity.
  destruct (update_of_absent_id_is_dropped reliable fetch_example u
              {[ "id" := VStr "a1" ]} [a0] Habs Hid) as [[Ha _] [Hs _]].
  split; [exact Ha|exact Hs].
Defined.

(** C2 as stated fails: the UPDATE for the unknown answer [a1] inserts
    nothing, and the two orders of arrival end in different stores. *)
Lemma update_before_insert_diverges :
  let i : row := {[ "id" := VStr "a1"; "student_answer" := VStr "x" ]} in
  let u : row := {[ "id" := VStr "a1"; "student_answer" := VStr "y" ]} in
  let ins := mkPayload INSERT i ∅ in
  let upd := mkPayload UPDATE u ∅ in
  on_answer_change upd [] = []
  ∧ on_answer_change ins (on_answer_change upd []) = [i]
  ∧ on_answer_change upd (on_answer_change ins []) = [u]
  ∧ on_answer_change ins (on_answer_change upd [])
    ≠ on_answer_change upd (on_answer_change ins []).
Proof.
  intros i u ins upd.
  assert (Hne : i ≠ u).
  { intros H. apply (f_equal (λ m : row, m !! "student_answer")) in H.
    vm_compute in H. discriminate. }
  assert (Hiu : on_answer_change upd (on_answer_change ins []) = [u]).
  { vm_compute. reflexivity. }
  repeat split; try done.
Qed.

(** X1: an UPDATE event changes neither the number nor the order nor the
    ids of the records of either store; a record it does not address is
    left as it is, one it addresses takes the fields of the event and
    keeps its others. *)
Theorem update_event_keeps_records (net : network) (db : Db) (n o : row)
    (prev : list row) :
  let upd := mkPayload UPDATE n o in
  Forall2 (merged_with n) prev (on_answer_change upd prev)
  ∧ Forall2 (merged_with n) prev (on_session_change net db upd prev).
Proof. split; apply merge_merged_with. Qed.

(** X2: two UPDATE events for the same id, one after the other, leave
    either store as one UPDATE event carrying the fields of both would,
    the later event winning where both have a field. *)
Theorem update_events_compose (net : network) (db : Db) (u1 u2 o1 o2 o : row)
    (prev : list row) :
  u1 !! "id" = u2 !! "id" →
  let first := mkPayload UPDATE u1 o1 in
  let second := mkPayload UPDATE u2 o2 in
  let both := mkPayload UPDATE (spread u1 u2) o in
  on_answer_change second (on_answer_change first prev) = on_answer_change both prev
  ∧ on_session_change net db second (on_session_change net db first prev)
    = on_session_change net db both prev.
Proof. intros Hid; simpl. split; by apply merge_compose. Qed.

Lemma update_events_compose_witness :
  let a : row := {[ "id" := VStr "a1"; "student_answer" := VStr "x" ]} in
  let u1 : row := {[ "id" := VStr "a1"; "student_answer" := VStr "y" ]} in
  let u2 : row := {[ "id" := VStr "a1"; "marks_awarded" := VNum 2 ]} in
  on_answer_change (mkPayload UPDATE u2 ∅) (on_answer_change (mkPayload UPDATE u1 ∅) [a])
  = on_answer_change (mkPayload UPDATE (spread u1 u2) ∅) [a].
Proof.
  intros a u1 u2.
  exact (proj1 (update_events_compose reliable (mkDb [] [] []) u1 u2 ∅ ∅ ∅ [a] eq_refl)).
Defined.

(** X3: a DELETE event after the INSERT event of the same id removes what
    the INSERT added, in either store: the store is as the DELETE alone
    would leave it, and as it was when no record had that id. *)
Theorem insert_then_delete_round_trip (net : network) (db : Db) (n o : row)
    (prev : list row) :
  o !! "id" = n !! "id" →
  let ins := mkPayload INSERT n ∅ in
  let del := mkPayload DELETE ∅ o in
  on_answer_change del (on_answer_change ins prev) = on_answer_change del prev
  ∧ on_session_change net db del (on_session_change net db ins prev)
    = on_session_change net db del prev
  ∧ (Forall (λ r, r !! "id" ≠ n !! "id") prev →
     on_answer_change del (on_answer_change ins prev) = prev
     ∧ on_session_change net db del (on_session_change net db ins prev) = prev).
Proof.
  intros Hid ins del.
  assert (Ha : on_answer_change del (on_answer_change ins prev)
               = on_answer_change del prev).
  { apply remove_after_append; simpl. by repeat constructor. }
  assert (Hs : on_session_change net db del (on_session_change net db ins prev)
               = on_session_change net db del prev).
  { unfold ins. rewrite on_session_insert. apply remove_after_append; simpl.
    rewrite Hid. apply session_arrival_id. }
  split; [done|]. split; [done|]. intros Habs.
  rewrite Ha, Hs. rewrite <- Hid in Habs. split; by apply remove_absent.
Qed.

Lemma insert_then_delete_round_trip_witness :
  let a0 : row := {[ "id" := VStr "a0" ]} in
  let a1 : row := {[ "id" := VStr "a1"; "student_answer" := VStr "x" ]} in
  on_answer_change (mkPayload DELETE ∅ {[ "id" := VStr "a1" ]})
    (on_answer_change (mkPayload INSERT a1 ∅) [a0]) = [a0].
Proof.
  intros a0 a1.
  refine (proj1 (proj2 (proj2 (insert_then_delete_round_trip reliable (mkDb [] [] [])
            a1 {[ "id" := VStr "a1" ]} [a0] _)) _)).
  - reflexivity.
  - repeat constructor. vm_compute. discriminate.
Defined.

(** ** Statistics and the feed *)

(** X4: an UPDATE event that carries a grader moves exactly the pending
    answers it addresses to the graded ones: [getLiveStats] reports the
    same total, that many more graded and that many fewer pending. *)
Theorem graded_update_moves_pending (sessions answers : list row) (n o : row)
    (grader : string) :
  n !! "graded_by" = Some (VStr grader) →
  let before := getLiveStats sessions answers in
  let after := getLiveStats sessions (on_answer_change (mkPayload UPDATE n o) answers) in
  let moved :=
    count (λ a, negb (is_graded a) && bool_decide (a !! "id" = n !! "id")) answers in
  totalAnswers after = totalAnswers before
  ∧ gradedAnswers after = gradedAnswers before + moved
  ∧ pendingGrading after = pendingGrading before - moved.
Proof.
  intros Hg before after moved.
  set (f := λ a : row, if decide (a !! "id" = n !! "id") then spread a n else a).
  assert (Hupd : ∀ l, on_answer_change (mkPayload UPDATE n o) l = f <$> l) by done.
  assert (Hcount : ∀ l, count is_graded (f <$> l)
    = count is_graded l
      + count (λ a, negb (is_graded a) && bool_decide (a !! "id" = n !! "id")) l).
  { induction l as [|a l IH]; [done|].
    rewrite fmap_cons, !count_cons, IH.
    assert (Ha : b2z (is_graded (f a))
      = b2z (is_graded a)
        + b2z (negb (is_graded a) && bool_decide (a !! "id" = n !! "id"))).
    { unfold f. destruct (decide (a !! "id" = n !! "id")) as [Hid|Hid].
      - rewrite bool_decide_eq_true_2 by done.
        assert (Hgr : is_graded (spread a n) = true).
        { unfold is_graded. apply bool_decide_eq_true.
          rewrite (spread_lookup_patch _ _ _ _ Hg). discriminate. }
        rewrite Hgr. by destruct (is_graded a).
      - rewrite bool_decide_eq_false_2 by done.
        rewrite andb_false_r. unfold b2z at 3. lia. }
    lia. }
  unfold before, after, moved, getLiveStats.
  cbn [totalAnswers gradedAnswers pendingGrading].
  rewrite Hupd, Hcount, length_fmap. repeat split; lia.
Qed.

Lemma graded_update_moves_pending_witness :
  let a1 : row := {[ "id" := VStr "a1"; "graded_by" := VNull ]} in
  let a2 : row := {[ "id" := VStr "a2"; "graded_by" := VNull ]} in
  let n : row := {[ "id" := VStr "a1"; "graded_by" := VStr "f1" ]} in
  gradedAnswers (getLiveStats [] (on_answer_change (mkPayload UPDATE n ∅) [a1; a2]))
  = 1.
Proof.
  intros a1 a2 n.
  rewrite (proj1 (proj2 (graded_update_moves_pending [] [a1; a2] n ∅ "f1" eq_refl))).
  reflexivity.
Defined.

(** X5: an INSERT event shows in [getSessionAnswers] of the session it
    names, at the end, and in that of no other session; a DELETE event
    takes out of each session's answers the ones with its id and keeps the
    order of the rest. *)
Theorem session_answers_follow_events (n o : row) (prev : list row)
    (sessionId : string) :
  getSessionAnswers (on_answer_change (mkPayload INSERT n ∅) prev) sessionId
  = getSessionAnswers prev sessionId
    ++ (if decide (n !! "session_id" = Some (VStr sessionId)) then [n] else [])
  ∧ getSessionAnswers (on_answer_change (mkPayload DELETE ∅ o) prev) sessionId
    = filter (λ a, a !! "id" ≠ o !! "id") (getSessionAnswers prev sessionId).
Proof.
  change (on_answer_change (mkPayload INSERT n ∅) prev) with (prev ++ [n]).
  change (on_answer_change (mkPayload DELETE ∅ o) prev)
    with (filter (λ a, a !! "id" ≠ o !! "id") prev).
  unfold getSessionAnswers. split.
  - rewrite filter_app. f_equal.
  - induction prev as [|a l IH]; [done|].
    rewrite !filter_cons. repeat case_decide; rewrite ?filter_cons;
      repeat case_decide; try done; by rewrite IH.
Qed.

(** ** The initial fetch *)

Section fetchData.
Variables (net : network) (db : Db) (testId : string).

Lemma with_student_fields (s : row) :
  let loaded := with_student (<["profiles" := embed_profile db s]> s) in
  loaded !! "student" = Some (embed_profile db s)
  ∧ loaded !! "profiles" = Some (embed_profile db s)
  ∧ ∀ k, k ∉ ["profiles"; "student"] → loaded !! k = s !! k.
Proof.
  unfold with_student. rewrite lookup_insert_eq; simpl.
  split; [apply lookup_insert_eq|].
  split; [by rewrite lookup_insert_ne, lookup_insert_eq|].
  intros k Hk. apply not_elem_of_cons in Hk as [Hp Hk].
  apply not_elem_of_cons in Hk as [Hs _].
  by rewrite !lookup_insert_ne.
Qed.

Lemma keys_sessions_of_test :
  keys (sessions_of_test db testId)
  = keys (filter (λ s, col_is "test_id" testId s = true) (tbl_test_sessions db)).
Proof.
  unfold sessions_of_test.
  induction (filter _ (tbl_test_sessions db)) as [|s l IH]; [done|].
  rewrite fmap_cons, !keys_cons, IH. unfold row_key.
  by rewrite lookup_insert_ne.
Qed.

Lemma fetchData_answered st :
  testId ≠ "" →
  net (Req Select "test_sessions" ["test_id"; testId]) = false →
  st_sessions (fetchData net db testId st) = with_student <$> sessions_of_test db testId
  ∧ st_isLoading (fetchData net db testId st) = false.
Proof.
  intros Hid Hnet. unfold fetchData.
  rewrite decide_False, Hnet by done.
  destruct (sessions_of_test db testId); [done|].
  by destruct (net (Req Select "answers" _)).
Qed.
End fetchData.

(** X6: a [fetchData] whose two queries are answered loads the sessions
    of the test, in the order of the table and each with its student's
    profile as [student], and, when there is such a session, exactly the
    answers of the table that belong to a loaded session. *)
Theorem fetchData_loads_the_test (net : network) (db : Db) (testId : string)
    (st : LiveState) :
  testId ≠ "" →
  net (Req Select "test_sessions" ["test_id"; testId]) = false →
  net (Req Select "answers" (keys (sessions_of_test db testId))) = false →
  let st' := fetchData net db testId st in
  st_isLoading st' = false
  ∧ Forall2 (λ s loaded : row,
       loaded !! "test_id" = Some (VStr testId)
       ∧ loaded !! "student" = Some (embed_profile db s)
       ∧ ∀ k, k ∉ ["profiles"; "student"] → loaded !! k = s !! k)
      (filter (λ s, s !! "test_id" = Some (VStr testId)) (tbl_test_sessions db))
      (st_sessions st')
  ∧ (st_sessions st' ≠ [] →
     ∀ a, a ∈ st_answers st' ↔
       a ∈ tbl_answers db
       ∧ ∃ s i, s ∈ st_sessions st' ∧ s !! "id" = Some (VStr i)
                ∧ a !! "session_id" = Some (VStr i)).
Proof.
  intros Hid Hs Ha st'.
  destruct (fetchData_answered net db testId st Hid Hs) as [Hsess Hload].
  fold st' in Hsess, Hload. split; [done|].
  assert (Hfilter : filter (λ s, s !! "test_id" = Some (VStr testId)) (tbl_test_sessions db)
                    = filter (λ s, col_is "test_id" testId s = true) (tbl_test_sessions db)).
  { apply list_filter_iff. intros s. symmetry. apply col_is_true. }
  split.
  - rewrite Hsess, Hfilter. unfold sessions_of_test.
    rewrite <- list_fmap_compose.
    apply Forall2_fmap_r, Forall_Forall2_diag, Forall_forall. intros s Hin; simpl.
    apply list_elem_of_filter in Hin as [Htest%col_is_true _].
    destruct (with_student_fields db s) as (Hst & _ & Hk).
    split; [|done]. rewrite Hk; [done|not_listed].
  - intros Hne.
    assert (Hans : st_answers st'
      = filter (λ a, col_in "session_id" (keys (sessions_of_test db testId)) a = true)
          (tbl_answers db)).
    { unfold st', fetchData. rewrite decide_False, Hs by done.
      rewrite Hsess in Hne.
      destruct (sessions_of_test db testId) as [|s0 l] eqn:Hl; [done|].
      by rewrite Ha. }
    intros a. rewrite Hans, list_elem_of_filter.
    assert (Hkeys : ∀ i, i ∈ keys (sessions_of_test db testId) ↔
              ∃ s, s ∈ st_sessions st' ∧ s !! "id" = Some (VStr i)).
    { intros i. rewrite Hsess. unfold keys. rewrite list_elem_of_omap. split.
      - intros (s & Hin & Hk%row_key_Some). exists (with_student s).
        split; [by apply list_elem_of_fmap_2|].
        unfold with_student, set_field.
        destruct (s !! "profiles"); by rewrite ?lookup_insert_ne, ?lookup_delete_ne.
      - intros (s' & (s & -> & Hin)%list_elem_of_fmap & Hk). exists s.
        split; [done|]. apply row_key_Some. revert Hk.
        unfold with_student, set_field.
        destruct (s !! "profiles"); by rewrite ?lookup_insert_ne, ?lookup_delete_ne. }
    unfold col_in. split.
    + intros [Hcol Hin]. split; [done|].
      destruct (a !! "session_id") as [[| | |i|]|]; try done.
      apply bool_decide_eq_true, Hkeys in Hcol as (s & Hs' & Hi). by exists s, i.
    + intros [Hin (s & i & Hs' & Hi & Hai)]. split; [|done].
      rewrite Hai. apply bool_decide_eq_true, Hkeys. by exists s.
Qed.

Lemma fetchData_loads_the_test_witness :
  let st' := fetchData reliable fetch_example "t1" (mkLive [] [] true) in
  let a1 : row := {[ "id" := VStr "a1"; "session_id" := VStr "s1" ]} in
  st_isLoading st' = false
  ∧ (a1 ∈ tbl_answers fetch_example
     ∧ ∃ s i, s ∈ st_sessions st' ∧ s !! "id" = Some (VStr i)
              ∧ a1 !! "session_id" = Some (VStr i)).
Proof.
  intros st' a1.
  assert (Hid : "t1" ≠ "") by discriminate.
  assert (Hne : st_sessions st' ≠ []) by (vm_compute; discriminate).
  destruct (fetchData_loads_the_test reliable fetch_example "t1"
              (mkLive [] [] true) Hid eq_refl eq_refl) as (Hload & _ & Hans).
  split; [exact Hload|]. apply (Hans Hne a1). by left.
Defined.

(** X7: fetching again changes nothing: whatever the queries answer, a
    second [fetchData] on the same store leaves the hook as the first
    left it. *)
Theorem fetchData_idempotent (net : network) (db : Db) (testId : string)
    (st : LiveState) :
  fetchData net db testId (fetchData net db testId st) = fetchData net db testId st.
Proof.
  unfold fetchData. destruct (decide (testId = "")); [done|].
  destruct (net (Req Select "test_sessions" _)); [done|].
  destruct (sessions_of_test db testId); [done|].
  by destruct (net (Req Select "answers" _)).
Qed.

(** X8: [fetchData] replaces the answers only when it loaded a session
    and the answers query was answered.  For a test without sessions, and
    when the answers query fails, the sessions are replaced and the answers
    stay as they were, so that the statistics may count answers with no
    session to belong to. *)
Theorem fetchData_keeps_stale_answers (net : network) (db : Db) (testId : string)
    (st : LiveState) :
  testId ≠ "" →
  net (Req Select "test_sessions" ["test_id"; testId]) = false →
  sessions_of_test db testId = []
  ∨ net (Req Select "answers" (keys (sessions_of_test db testId))) = true →
  let st' := fetchData net db testId st in
  st_answers st' = st_answers st
  ∧ st_sessions st' = with_student <$> sessions_of_test db testId
  ∧ (sessions_of_test db testId = [] →
     let stats := getLiveStats (st_sessions st') (st_answers st') in
     totalSessions stats = 0
     ∧ totalAnswers stats = Z.of_nat (length (st_answers st))).
Proof.
  intros Hid Hs Hcase st'.
  assert (Hans : st_answers st' = st_answers st).
  { unfold st', fetchData. rewrite decide_False, Hs by done.
    destruct Hcase as [Hnone|Hfail].
    - by rewrite Hnone.
    - rewrite Hfail. by destruct (sessions_of_test db testId). }
  destruct (fetchData_answered net db testId st Hid Hs) as [Hsess _].
  fold st' in Hsess. split; [done|]. split; [done|].
  intros Hnone stats. unfold stats, getLiveStats; simpl.
  by rewrite Hsess, Hnone, Hans.
Qed.

Lemma fetchData_keeps_stale_answers_witness :
  let stale : row := {[ "id" := VStr "a1"; "session_id" := VStr "s1" ]} in
  let st' := fetchData reliable fetch_example "t9" (mkLive [] [stale] true) in
  totalSessions (getLiveStats (st_sessions st') (st_answers st')) = 0
  ∧ totalAnswers (getLiveStats (st_sessions st') (st_answers st')) = 1.
Proof.
  intros stale st'.
  refine (proj2 (proj2 (fetchData_keeps_stale_answers reliable fetch_example "t9"
            (mkLive [] [stale] true) _ eq_refl (or_introl eq_refl))) eq_refl).
  discriminate.
Defined.

(** X9: the INSERT event of a session that [fetchData] has already loaded
    appends the record that is in the store already: the session is then
    listed twice. *)
Theorem insert_after_fetch_lists_twice (net : network) (db : Db) (testId id : string)
    (s n o : row) (st : LiveState) :
  testId ≠ "" →
  net (Req Select "test_sessions" ["test_id"; testId]) = false →
  net (Req Select "test_sessions" [id]) = false →
  filter (λ r, col_is "id" id r = true) (tbl_test_sessions db) = [s] →
  s !! "test_id" = Some (VStr testId) →
  n !! "id" = Some (VStr id) →
  let loaded := st_sessions (fetchData net db testId st) in
  ∃ r, r ∈ loaded
    ∧ on_session_change net db (mkPayload INSERT n o) loaded = loaded ++ [r].
Proof.
  intros Hid Hs Hi Hone Htest Hn loaded.
  exists (with_student (<["profiles" := embed_profile db s]> s)). split.
  - unfold loaded.
    rewrite (proj1 (fetchData_answered net db testId st Hid Hs)).
    apply list_elem_of_fmap_2. unfold sessions_of_test.
    apply (list_elem_of_fmap_2 (λ s0 : row, <["profiles" := embed_profile db s0]> s0)).
    apply list_elem_of_filter. split; [by apply col_is_true|].
    assert (Hin : s ∈ filter (λ r, col_is "id" id r = true) (tbl_test_sessions db))
      by (rewrite Hone; by left).
    by apply list_elem_of_filter in Hin as [_ ?].
  - rewrite on_session_insert. f_equal.
    unfold session_arrival, fetch_session, select_single.
    by rewrite Hn, Hi, Hone.
Qed.

Lemma insert_after_fetch_lists_twice_witness :
  let loaded := st_sessions (fetchData reliable fetch_example "t1" (mkLive [] [] true)) in
  ∃ r, r ∈ loaded
    ∧ on_session_change reliable fetch_example
        (mkPayload INSERT {[ "id" := VStr "s1" ]} ∅) loaded = loaded ++ [r].
Proof.
  refine (insert_after_fetch_lists_twice reliable fetch_example "t1" "s1"
            {[ "id" := VStr "s1"; "test_id" := VStr "t1"; "student_id" := VStr "u1" ]}
            {[ "id" := VStr "s1" ]} ∅ (mkLive [] [] true) _ eq_refl eq_refl _ _ _).
  - discriminate.
  - by vm_compute.
  - reflexivity.
  - reflexivity.
Defined.

(** ** The evaluation dashboard *)

Section counting.
Implicit Types (p q : row → bool) (l : list row).

Lemma count_mono p q l :
  (∀ r, r ∈ l → p r = true → q r = true) → count p l ≤ count q l.
Proof.
  induction l as [|r l IH]; intros H; [done|].
  rewrite !count_cons.
  assert (IH' : count p l ≤ count q l).
  { apply IH. intros r' Hin. apply H. by right. }
  assert (Hr : p r = true → q r = true) by (apply H; by left).
  destruct (p r), (q r); unfold b2z; try lia; by specialize (Hr eq_refl).

Qed.

Lemma count_agree p q l :
  (∀ r, r ∈ l → p r = q r) → count p l = count q l.
Proof.
  induction l as [|r l IH]; intros H; [done|].
  rewrite !count_cons, (H r) by by left.
  rewrite IH; [done|]. intros r' Hin. apply H. by right.
Qed.
End counting.

Lemma truthy_is_graded (a : row) :
  truthy (a !! "graded_by") = true → is_graded a = true.
Proof.
  unfold is_graded. intros H. apply bool_decide_eq_true. intros Hn.
  by rewrite Hn in H.
Qed.

(** X10: in the overview table, the graded and the pending answers of a
    session add up to its answers.  The table counts an answer as graded
    when [graded_by] is truthy, [getLiveStats] when it is not null: the
    table never counts more, and counts the same when every [graded_by] is
    null or a non-empty string. *)
Theorem overview_counts_graded (answers : list row) (sessionId : string) :
  let mine := getSessionAnswers answers sessionId in
  gradedCount answers sessionId + pendingCount answers sessionId
  = Z.of_nat (length mine)
  ∧ gradedCount answers sessionId ≤ gradedAnswers (getLiveStats [] mine)
  ∧ ((∀ a, a ∈ mine →
        a !! "graded_by" = Some VNull
        ∨ ∃ g, g ≠ "" ∧ a !! "graded_by" = Some (VStr g)) →
     gradedCount answers sessionId = gradedAnswers (getLiveStats [] mine)).
Proof.
  intros mine.
  change (gradedCount answers sessionId)
    with (count (λ a, truthy (a !! "graded_by")) mine).
  change (pendingCount answers sessionId)
    with (count (λ a, negb (truthy (a !! "graded_by"))) mine).
  change (gradedAnswers (getLiveStats [] mine)) with (count is_graded mine).
  split; [apply count_negb|]. split.
  - apply count_mono. intros a _. apply truthy_is_graded.
  - intros Htyped. apply count_agree. intros a Ha. unfold is_graded.
    destruct (Htyped a Ha) as [H|(g & Hg & H)]; rewrite H; unfold truthy.
    + symmetry. apply bool_decide_eq_false. intros Hn. by apply Hn.
    + rewrite bool_decide_eq_true_2 by done.
      by apply negb_true_iff, String.eqb_neq.
Qed.

Lemma overview_counts_graded_witness :
  let a1 : row := {[ "session_id" := VStr "s1"; "graded_by" := VStr "f1" ]} in
  let a2 : row := {[ "session_id" := VStr "s1"; "graded_by" := VNull ]} in
  gradedCount [a1; a2] "s1" = gradedAnswers (getLiveStats [] (getSessionAnswers [a1; a2] "s1")).
Proof.
  intros a1 a2.
  refine (proj2 (proj2 (overview_counts_graded [a1; a2] "s1")) _).
  intros a Ha. change (getSessionAnswers [a1; a2] "s1") with [a1; a2] in Ha.
  apply elem_of_cons in Ha as [->|Ha].
  - right. exists "f1". split; [discriminate|reflexivity].
  - apply list_elem_of_singleton in Ha as ->. by left.
Defined.

Lemma badge_category (s : row) :
  (getStatusBadge (s !! "status") = InProgress ↔ is_active s = true)
  ∧ (getStatusBadge (s !! "status") = Submitted ↔ is_submitted s = true)
  ∧ (getStatusBadge (s !! "status") = Terminated ↔ is_terminated s = true).
Proof.
  unfold getStatusBadge, is_active, is_submitted, is_terminated, status_is, col_is.
  rewrite !orb_true_iff, !bool_decide_eq_true.
  destruct (s !! "status") as [[| | |x|]|]; try (intuition congruence).
  repeat case_decide; subst; intuition congruence.
Qed.

(** X11: the badges agree with the statistics.  The sessions shown as In
    Progress, Submitted and Terminated are as many as [getLiveStats]
    counts active, submitted and terminated, and the sessions listed for
    evaluation are the submitted ones. *)
Theorem badges_agree_with_stats (sessions answers : list row) :
  let st := getLiveStats sessions answers in
  let shown b := Z.of_nat (length
    (filter (λ s, getStatusBadge (s !! "status") = b) sessions)) in
  shown InProgress = activeSessions st
  ∧ shown Submitted = submittedSessions st
  ∧ shown Terminated = terminatedSessions st
  ∧ Z.of_nat (length (evaluable sessions)) = submittedSessions st.
Proof.
  intros st shown. unfold shown, st, getLiveStats; simpl.
  repeat split; symmetry; apply count_spec; intros s.
  - symmetry. apply badge_category.
  - symmetry. apply badge_category.
  - symmetry. apply badge_category.
  - unfold is_submitted, status_is, col_is.
    by rewrite orb_true_iff, !bool_decide_eq_true.
Qed.

(** ** Answers, one call after another *)

Section filters.
Implicit Types (r patch : row) (t : list row) (p q : row → bool).

Lemma filter_update_where patch p q t :
  (∀ r, q (spread r patch) = q r) →
  filter (λ r, q r = true) (update_where patch p t)
  = update_where patch p (filter (λ r, q r = true) t).
Proof.
  intros Hq. unfold update_where. induction t as [|r t IH]; [done|].
  rewrite fmap_cons, !filter_cons.
  assert (Hr : q (if p r then spread r patch else r) = q r) by by destruct (p r).
  rewrite Hr. case_decide; [rewrite fmap_cons|]; by rewrite IH.
Qed.

Lemma filter_fmap_fixed (P : row → Prop) `{!∀ r, Decision (P r)} (f : row → row) t :
  (∀ r, r ∈ t → P (f r) ↔ P r) →
  (∀ r, r ∈ t → P r → f r = r) →
  filter P (f <$> t) = filter P t.
Proof.
  induction t as [|r t IH]; intros Hiff Hfix; [done|].
  rewrite fmap_cons, !filter_cons.
  assert (IH' : filter P (f <$> t) = filter P t).
  { apply IH; intros r' Hin; [apply Hiff|apply Hfix]; by right. }
  destruct (decide (P r)) as [HP|HP].
  - rewrite decide_True by (apply Hiff; [by left|done]).
    rewrite Hfix by (try done; by left). by rewrite IH'.
  - rewrite decide_False; [done|]. intros HP'. apply HP. apply Hiff; [by left|done].
Qed.

Lemma length_update_where patch p t : length (update_where patch p t) = length t.
Proof. apply length_fmap. Qed.
End filters.

Lemma answers_for_unique sessionId questionId t r :
  one_per_question t → r ∈ t → answer_of sessionId questionId r = true →
  answers_for sessionId questionId t = [r].
Proof.
  intros Hone Hin Hr. specialize (Hone sessionId questionId).
  assert (Hf : r ∈ answers_for sessionId questionId t)
    by by apply list_elem_of_filter.
  unfold answers_for in *.
  destruct (filter _ t) as [|r1 [|r2 l]]; simpl in Hone.
  - by apply elem_of_nil in Hf.
  - by apply list_elem_of_singleton in Hf as ->.
  - lia.
Qed.

Lemma has_answer_exactly sessionId questionId answer t :
  one_per_question t → has_answer sessionId questionId answer t →
  ∃ r, answers_for sessionId questionId t = [r]
    ∧ r !! "student_answer" = Some (VStr answer).
Proof.
  intros Hone (r & Hin & Hs & Hq & Ha). exists r. split; [|done].
  apply answers_for_unique; [done..|].
  apply andb_true_iff. by split; apply col_is_true.
Qed.

Lemma submitAnswer_grows net now sessionId questionId answer db :
  (length (tbl_answers db)
   ≤ length (tbl_answers (submitAnswer net now sessionId questionId answer db).2))%nat.
Proof.
  destruct (submitAnswer_cases net now sessionId questionId answer db)
    as [[_ ->]|[(ex & id & _ & _ & _ & ->)|[_ ->]]]; simpl.
  - done.
  - by rewrite length_update_where.
  - unfold insert_row. rewrite length_app. lia.
Qed.

(** A call that finds the answer updates it in place. *)
Lemma submitAnswer_in_place net now sessionId questionId answer db db' r :
  net (Req Select "answers" [sessionId; questionId]) = false →
  answers_for sessionId questionId (tbl_answers db) = [r] →
  submitAnswer net now sessionId questionId answer db = (true, db') →
  length (tbl_answers db') = length (tbl_answers db).
Proof.
  intros Hsel Hr Hcall.
  destruct (submitAnswer_cases net now sessionId questionId answer db)
    as [[Hf _]|[(ex & id & _ & _ & _ & Hres)|[[Hsel'|Hnone] _]]].
  - by rewrite Hcall in Hf.
  - rewrite Hcall in Hres. injection Hres as ->. simpl. apply length_update_where.
  - congruence.
  - unfold select_single in Hnone. unfold answers_for in Hr. by rewrite Hr in Hnone.
Qed.

(** X12: two successful calls of [submitAnswer] for the same session and
    question, on a store that answers the lookup and has at most one
    answer per session and question, leave exactly one answer for them,
    holding the text of the second call; the second call adds no row. *)
Theorem submitAnswer_latest_wins (net : network) (t1 t2 sessionId questionId : string)
    (first second : string) (db db1 db2 : Db) :
  net (Req Select "answers" [sessionId; questionId]) = false →
  one_per_question (tbl_answers db) →
  submitAnswer net t1 sessionId questionId first db = (true, db1) →
  submitAnswer net t2 sessionId questionId second db1 = (true, db2) →
  (∃ r, answers_for sessionId questionId (tbl_answers db2) = [r]
     ∧ r !! "student_answer" = Some (VStr second))
  ∧ length (tbl_answers db2) = length (tbl_answers db1).
Proof.
  intros Hsel Hone H1 H2.
  assert (Hone1 : one_per_question (tbl_answers db1)).
  { pose proof (submitAnswer_one_per_question net t1 sessionId questionId first db
                  Hsel Hone) as H. by rewrite H1 in H. }
  assert (Hone2 : one_per_question (tbl_answers db2)).
  { pose proof (submitAnswer_one_per_question net t2 sessionId questionId second db1
                  Hsel Hone1) as H. by rewrite H2 in H. }
  split.
  - apply has_answer_exactly; [done|].
    exact (submitAnswer_has net t2 sessionId questionId second db1 db2 H2).
  - destruct (has_answer_exactly sessionId questionId first (tbl_answers db1) Hone1)
      as (r1 & Hr1 & _).
    { exact (submitAnswer_has net t1 sessionId questionId first db db1 H1). }
    exact (submitAnswer_in_place net t2 sessionId questionId second db1 db2 r1
             Hsel Hr1 H2).
Qed.

Lemma submitAnswer_latest_wins_witness :
  let db := mkDb [] [] [] in
  let db1 := (submitAnswer reliable "t1" "s1" "q1" "41" db).2 in
  let db2 := (submitAnswer reliable "t2" "s1" "q1" "42" db1).2 in
  (∃ r, answers_for "s1" "q1" (tbl_answers db2) = [r]
     ∧ r !! "student_answer" = Some (VStr "42"))
  ∧ length (tbl_answers db2) = length (tbl_answers db1).
Proof.
  intros db db1 db2.
  refine (submitAnswer_latest_wins reliable "t1" "t2" "s1" "q1" "41" "42" db db1 db2
            eq_refl _ _ _).
  - intros s q. simpl. lia.
  - reflexivity.
  - by vm_compute.
Defined.

(** ** A whole submission *)

Lemma submitAnswer_others net now sessionId questionId answer db :
  NoDup (keys (tbl_answers db)) →
  answers_of_others sessionId
    (tbl_answers (submitAnswer net now sessionId questionId answer db).2)
  = answers_of_others sessionId (tbl_answers db).
Proof.
  intros Hnd. unfold answers_of_others.
  destruct (submitAnswer_cases net now sessionId questionId answer db)
    as [[_ ->]|[(ex & id & Hex & Hp & Hid & ->)|[_ ->]]]; simpl; [done|..].
  - apply andb_true_iff in Hp as [Hs%col_is_true _].
    unfold update_where. apply filter_fmap_fixed.
    + intros r _. destruct (col_is "id" id r); [|done].
      by rewrite spread_lookup_kept.
    + intros r Hin Hother. destruct (col_is "id" id r) eqn:Hr; [|done].
      apply col_is_true, row_key_Some in Hr.
      assert (r = ex) as -> by by eapply same_key_same_row.
      by destruct Hother.
  - unfold insert_row. rewrite filter_app, filter_cons, decide_False, app_nil_r; [done|].
    intros H. apply H.
    apply (stored_answer_fields sessionId questionId answer (tbl_answers db)).
Qed.

Section submission.
Variables (net : network) (clock : string → string) (sessionId : string).
Implicit Types (db : Db) (entries : list (string * string)).

Lemma submitAnswers_others entries db :
  NoDup (keys (tbl_answers db)) →
  answers_of_others sessionId
    (tbl_answers (submitAnswers net clock sessionId entries db).2)
  = answers_of_others sessionId (tbl_answers db).
Proof.
  revert db. induction entries as [|[q a] entries IH]; intros db Hnd; [done|].
  rewrite submitAnswers_cons; simpl.
  rewrite IH by by apply submitAnswer_keys. by apply submitAnswer_others.
Qed.

Lemma submitAnswers_grows entries db :
  (length (tbl_answers db)
   ≤ length (tbl_answers (submitAnswers net clock sessionId entries db).2))%nat.
Proof.
  revert db. induction entries as [|[q a] entries IH]; intros db; [done|].
  rewrite submitAnswers_cons; simpl.
  etrans; [apply (submitAnswer_grows net (clock q) sessionId q a db)|apply IH].
Qed.

Lemma submitTest_answers now answers forced db :
  tbl_answers (submitTest net clock now sessionId answers forced db).2
  = tbl_answers (submitAnswers net clock sessionId (map_to_list answers) db).2.
Proof. rewrite submitTest_unfold; simpl. by destruct (net (Req Update _ _)). Qed.
End submission.

Section kept_rows.
Variables (net : network) (sessionId : string).
Implicit Types (db : Db) (r : row) (questions : list string).

Lemma answer_kept_refl questions r : answer_kept sessionId questions r r.
Proof. by split. Qed.

Lemma answer_kept_trans questions r1 r2 r3 :
  answer_kept sessionId questions r1 r2 → answer_kept sessionId questions r2 r3 →
  answer_kept sessionId questions r1 r3.
Proof.
  intros [Hk1 Hsame1] [Hk2 Hsame2]. split.
  - intros k Hk. by rewrite Hk2, Hk1.
  - intros Hno. rewrite <- (Hsame1 Hno) in Hno |- *. by apply Hsame2.
Qed.

Lemma answer_kept_more questions1 questions2 r r' :
  (∀ q, q ∈ questions1 → q ∈ questions2) →
  answer_kept sessionId questions1 r r' → answer_kept sessionId questions2 r r'.
Proof.
  intros Hsub [Hk Hsame]. split; [done|].
  intros Hno. apply Hsame. intros q Hq. by apply Hno, Hsub.
Qed.

(** A call leaves every row in its place, and changes at most the text
    and the update time of the answer it is for. *)
Lemma submitAnswer_rows now questionId answer db (i : nat) r :
  NoDup (keys (tbl_answers db)) →
  tbl_answers db !! i = Some r →
  ∃ r', tbl_answers (submitAnswer net now sessionId questionId answer db).2 !! i
        = Some r'
    ∧ answer_kept sessionId [questionId] r r'.
Proof.
  intros Hnd Hi.
  destruct (submitAnswer_cases net now sessionId questionId answer db)
    as [[_ ->]|[(ex & id & Hex & Hp & Hid & ->)|[_ ->]]]; simpl.
  - exists r. split; [done|apply answer_kept_refl].
  - rewrite update_where_lookup, Hi; simpl.
    destruct (col_is "id" id r) eqn:Hr.
    + eexists. split; [done|]. split.
      * intros k Hk. apply spread_lookup_kept. unfold answer_patch.
        apply not_elem_of_cons in Hk as [Hk1 Hk].
        apply not_elem_of_cons in Hk as [Hk2 _].
        by rewrite lookup_insert_ne, lookup_singleton_ne.
      * intros Hno. apply col_is_true, row_key_Some in Hr.
        assert (r = ex) as ->.
        { eapply same_key_same_row; [exact Hnd| |exact Hex|exact Hr|exact Hid].
          apply list_elem_of_lookup. by exists i. }
        rewrite (Hno questionId) in Hp by by left. done.
    + exists r. split; [done|apply answer_kept_refl].
  - exists r. split; [|apply answer_kept_refl].
    unfold insert_row. by apply lookup_app_l_Some.
Qed.

Lemma submitAnswers_rows clock entries db (i : nat) r :
  NoDup (keys (tbl_answers db)) →
  tbl_answers db !! i = Some r →
  ∃ r', tbl_answers (submitAnswers net clock sessionId entries db).2 !! i = Some r'
    ∧ answer_kept sessionId entries.*1 r r'.
Proof.
  revert db r. induction entries as [|[q a] entries IH]; intros db r Hnd Hi.
  { exists r. split; [done|apply answer_kept_refl]. }
  rewrite submitAnswers_cons; simpl.
  destruct (submitAnswer_rows (clock q) q a db i r Hnd Hi) as (r1 & Hi1 & Hk1).
  destruct (IH (submitAnswer net (clock q) sessionId q a db).2 r1
              (submitAnswer_keys net (clock q) sessionId q a db Hnd) Hi1)
    as (r2 & Hi2 & Hk2).
  exists r2. split; [done|].
  apply (answer_kept_trans _ r r1 r2).
  - eapply answer_kept_more; [|exact Hk1].
    intros q' ->%list_elem_of_singleton. by left.
  - eapply answer_kept_more; [|exact Hk2]. intros q' Hq'. by right.
Qed.
End kept_rows.

(** X13: [submitTest] removes no answer and touches only what it
    submits, provided no two answers of the table share an id.  Every row
    of the table stays at its place with its id; at most its text and
    update time change, and nothing changes unless the row is the answer
    of this session to a submitted question.  The answers of other
    sessions are the same rows as before. *)
Theorem submitTest_spares_other_sessions (net : network) (clock : string → string)
    (now sessionId : string) (answers : gmap string string) (forced : bool)
    (db : Db) :
  NoDup (keys (tbl_answers db)) →
  let db' := (submitTest net clock now sessionId answers forced db).2 in
  answers_of_others sessionId (tbl_answers db')
  = answers_of_others sessionId (tbl_answers db)
  ∧ (length (tbl_answers db) ≤ length (tbl_answers db'))%nat
  ∧ ∀ (i : nat) r, tbl_answers db !! i = Some r →
      ∃ r', tbl_answers db' !! i = Some r'
        ∧ (∀ k, k ∉ ["student_answer"; "updated_at"] → r' !! k = r !! k)
        ∧ ((∀ questionId answer, answers !! questionId = Some answer →
              answer_of sessionId questionId r = false) → r' = r).
Proof.
  intros Hnd db'. unfold db'. rewrite submitTest_answers.
  split; [by apply submitAnswers_others|]. split; [apply submitAnswers_grows|].
  intros i r Hi.
  destruct (submitAnswers_rows net sessionId clock (map_to_list answers) db i r Hnd Hi)
    as (r' & Hi' & Hk & Hsame).
  exists r'. split; [done|]. split; [done|].
  intros Hno. apply Hsame.
  intros q ([q' a] & -> & Hin%elem_of_map_to_list)%list_elem_of_fmap.
  by eapply Hno.
Qed.

Lemma submitTest_spares_other_sessions_witness :
  let other : row := {[ "id" := VStr "a7"; "session_id" := VStr "s2";
                         "question_id" := VStr "q1"; "student_answer" := VStr "x" ]} in
  let db := mkDb [] [other] [] in
  let db' := (submitTest reliable (λ _, "t0") "t1" "s1" {[ "q1" := "42" ]} false db).2 in
  answers_of_others "s1" (tbl_answers db') = answers_of_others "s1" [other]
  ∧ ∃ r', tbl_answers db' !! 0%nat = Some r' ∧ r' !! "id" = Some (VStr "a7").
Proof.
  intros other db db'.
  assert (Hnd : NoDup (keys (tbl_answers db))) by apply NoDup_singleton.
  destruct (submitTest_spares_other_sessions reliable (λ _, "t0") "t1" "s1"
              {[ "q1" := "42" ]} false db Hnd) as (Hothers & _ & Hrows).
  split; [exact Hothers|].
  destruct (Hrows 0%nat other eq_refl) as (r' & Hr' & Hk & _).
  exists r'. split; [exact Hr'|]. rewrite Hk; [reflexivity|not_listed].
Defined.

(** X14: a second [submitTest] is safe.  On a store that answers the
    lookups, with ids that are a primary key and at most one answer per
    session and question, after two submissions whose answer writes all
    succeed every question of the second has exactly one answer, holding
    the text of the second, and every question only the first had has
    exactly one, holding the text of the first. *)
Theorem submitTest_again (net : network) (clock1 clock2 : string → string)
    (now1 now2 sessionId : string) (answers1 answers2 : gmap string string)
    (forced1 forced2 : bool) (db : Db) :
  (∀ questionId, net (Req Select "answers" [sessionId; questionId]) = false) →
  NoDup (keys (tbl_answers db)) →
  one_per_question (tbl_answers db) →
  let db1 := (submitTest net clock1 now1 sessionId answers1 forced1 db).2 in
  let db2 := (submitTest net clock2 now2 sessionId answers2 forced2 db1).2 in
  Forall (λ ok, ok = true)
    (submitAnswers net clock1 sessionId (map_to_list answers1) db).1 →
  Forall (λ ok, ok = true)
    (submitAnswers net clock2 sessionId (map_to_list answers2) db1).1 →
  ∀ questionId answer,
    answers2 !! questionId = Some answer
    ∨ (answers2 !! questionId = None ∧ answers1 !! questionId = Some answer) →
    ∃ r, answers_for sessionId questionId (tbl_answers db2) = [r]
      ∧ r !! "student_answer" = Some (VStr answer).
Proof.
  intros Hsel Hnd Hone db1 db2 Hok1 Hok2 questionId answer Hcase.
  set (p1 := submitAnswers net clock1 sessionId (map_to_list answers1) db) in *.
  assert (Ht1 : tbl_answers db1 = tbl_answers p1.2) by apply submitTest_answers.
  assert (Hnd1 : NoDup (keys (tbl_answers db1)))
    by (rewrite Ht1; by apply submitAnswers_keys).
  assert (Hone1 : one_per_question (tbl_answers db1))
    by (rewrite Ht1; by apply submitAnswers_one_per_question).
  set (p2 := submitAnswers net clock2 sessionId (map_to_list answers2) db1) in *.
  assert (Ht2 : tbl_answers db2 = tbl_answers p2.2) by apply submitTest_answers.
  apply has_answer_exactly.
  { rewrite Ht2. by apply submitAnswers_one_per_question. }
  rewrite Ht2. destruct Hcase as [H2|[H2 H1]].
  - apply submitAnswers_has; [done|apply NoDup_fst_map_to_list|done|].
    by apply elem_of_map_to_list.
  - apply submitAnswers_keeps; [done| |].
    + intros ([q a] & -> & Hin%elem_of_map_to_list)%list_elem_of_fmap.
      simpl in H2. congruence.
    + rewrite Ht1. apply submitAnswers_has; [done|apply NoDup_fst_map_to_list|done|].
      by apply elem_of_map_to_list.
Qed.

Lemma submitTest_again_witness :
  let db1 := (submitTest reliable (λ _, "t0") "t1" "s1" {[ "q1" := "41" ]} false sitting).2 in
  let db2 := (submitTest reliable (λ _, "t2") "t3" "s1" {[ "q1" := "42" ]} false db1).2 in
  ∃ r, answers_for "s1" "q1" (tbl_answers db2) = [r]
    ∧ r !! "student_answer" = Some (VStr "42").
Proof.
  intros db1 db2.
  refine (submitTest_again reliable (λ _, "t0") (λ _, "t2") "t1" "t3" "s1"
            {[ "q1" := "41" ]} {[ "q1" := "42" ]} false false sitting
            (λ _, eq_refl) _ _ _ _ "q1" "42" (or_introl _)).
  - apply NoDup_singleton.
  - intros s q. unfold sitting; simpl. rewrite filter_cons.
    case_decide; simpl; lia.
  - rewrite map_to_list_singleton. by repeat constructor.
  - rewrite map_to_list_singleton. by repeat constructor.
  - apply lookup_singleton_eq.
Defined.

(** X15: the status write comes last and nothing is undone.  When it is
    refused after an answer phase that succeeded, [submitTest] returns
    [false], the sessions are as before, and the answers are on record. *)
Theorem submitTest_keeps_answers_on_failure (net : network) (clock : string → string)
    (now sessionId : string) (answers : gmap string string) (forced : bool)
    (db : Db) :
  net (Req Update "test_sessions" [sessionId]) = true →
  NoDup (keys (tbl_answers db)) →
  Forall (λ ok, ok = true)
    (submitAnswers net clock sessionId (map_to_list answers) db).1 →
  let res := submitTest net clock now sessionId answers forced db in
  res.1 = false
  ∧ tbl_test_sessions res.2 = tbl_test_sessions db
  ∧ ∀ questionId answer, answers !! questionId = Some answer →
      has_answer sessionId questionId answer (tbl_answers res.2).
Proof.
  intros Hfail Hnd Hok res. unfold res.
  split; [by rewrite submitTest_result, Hfail|].
  split.
  - rewrite submitTest_unfold; simpl. rewrite Hfail; simpl.
    apply submitAnswers_sessions.
  - intros questionId answer Hin. rewrite submitTest_answers.
    apply submitAnswers_has; [done|apply NoDup_fst_map_to_list|done|].
    by apply elem_of_map_to_list.
Qed.

Lemma submitTest_keeps_answers_on_failure_witness :
  let net := refuses (Req Update "test_sessions" ["s1"]) in
  let res := submitTest net (λ _, "t0") "t1" "s1" {[ "q1" := "42" ]} false sitting in
  res.1 = false
  ∧ tbl_test_sessions res.2 = tbl_test_sessions sitting
  ∧ has_answer "s1" "q1" "42" (tbl_answers res.2).
Proof.
  intros net res.
  destruct (submitTest_keeps_answers_on_failure net (λ _, "t0") "t1" "s1"
              {[ "q1" := "42" ]} false sitting) as (Hres & Hsess & Hans).
  - reflexivity.
  - apply NoDup_singleton.
  - rewrite map_to_list_singleton. by repeat constructor.
  - split; [exact Hres|]. split; [exact Hsess|].
    apply Hans. apply lookup_singleton_eq.
Defined.

(** ** Warnings *)

Section warnings.
Implicit Types (w : warningData) (r patch : row) (t : list row).

Lemma opt_field_lookup k v k' :
  opt_field k v !! k' = if decide (k = k') then VNum <$> v else None.
Proof.
  unfold opt_field. destruct v as [n|]; simpl.
  - case_decide as Hk; [subst; apply lookup_singleton_eq|by apply lookup_singleton_ne].
  - rewrite lookup_empty. by case_decide.
Qed.

Lemma warning_patch_lookup w k :
  warning_patch w !! k
  = if decide (k = "total_warnings") then VNum <$> total_warnings w
    else if decide (k = "tab_switch_count") then VNum <$> tab_switch_count w
    else if decide (k = "fullscreen_exit_count") then VNum <$> fullscreen_exit_count w
    else None.
Proof.
  unfold warning_patch. rewrite !lookup_union, !opt_field_lookup.
  repeat case_decide; subst; try done;
    by destruct (total_warnings w), (tab_switch_count w), (fullscreen_exit_count w).
Qed.

Lemma warning_patch_other w k :
  k ∉ ["total_warnings"; "tab_switch_count"; "fullscreen_exit_count"] →
  warning_patch w !! k = None.
Proof.
  intros Hk. rewrite warning_patch_lookup.
  repeat case_decide; subst; try done; destruct Hk;
    repeat (first [by left | right]).
Qed.

Lemma spread_comm r patch1 patch2 :
  patch1 ##ₘ patch2 → spread (spread r patch1) patch2 = spread (spread r patch2) patch1.
Proof.
  intros Hd. unfold spread.
  by rewrite !(assoc_L (∪)), (map_union_comm patch2 patch1).
Qed.

Lemma update_where_comm patch1 patch2 (p1 p2 : row → bool) t :
  patch1 ##ₘ patch2 →
  (∀ r, p1 (spread r patch2) = p1 r) →
  (∀ r, p2 (spread r patch1) = p2 r) →
  update_where patch1 p1 (update_where patch2 p2 t)
  = update_where patch2 p2 (update_where patch1 p1 t).
Proof.
  intros Hd H1 H2. unfold update_where. rewrite <- !list_fmap_compose.
  apply list_fmap_ext. intros _ r _; simpl.
  destruct (p1 r) eqn:E1, (p2 r) eqn:E2; rewrite ?H1, ?H2, ?E1, ?E2; try done.
  by apply spread_comm.
Qed.

Lemma warning_status_disjoint w now forced :
  warning_patch w ##ₘ status_patch now forced.
Proof.
  apply map_disjoint_alt. intros k.
  destruct (decide (k ∈ ["total_warnings"; "tab_switch_count"; "fullscreen_exit_count"]))
    as [Hk|Hk].
  - right. unfold status_patch.
    rewrite lookup_insert_ne, lookup_singleton_ne; [done|..];
      intros <-; revert Hk; not_listed.
  - left. by apply warning_patch_other.
Qed.
End warnings.

Lemma submitAnswer_with_sessions net now sessionId questionId answer db t :
  submitAnswer net now sessionId questionId answer (with_test_sessions db t)
  = ((submitAnswer net now sessionId questionId answer db).1,
     with_test_sessions (submitAnswer net now sessionId questionId answer db).2 t).
Proof.
  unfold submitAnswer; simpl.
  destruct (net (Req Select _ _)); [by destruct (net (Req Insert _ _))|].
  destruct (select_single _ _) as [ex|]; [|by destruct (net (Req Insert _ _))].
  destruct (row_key ex); [|done]. by destruct (net (Req Update _ _)).
Qed.

Lemma submitAnswers_with_sessions net clock sessionId entries db t :
  submitAnswers net clock sessionId entries (with_test_sessions db t)
  = ((submitAnswers net clock sessionId entries db).1,
     with_test_sessions (submitAnswers net clock sessionId entries db).2 t).
Proof.
  revert db. induction entries as [|[q a] entries IH]; intros db; [done|].
  rewrite !submitAnswers_cons; simpl.
  rewrite submitAnswer_with_sessions; simpl. by rewrite IH.
Qed.

(** X16: [updateSessionWarnings] writes the counters it is given, and
    only those: in the session it addresses a counter that is given takes
    the new value, every other field stays, and the other sessions and the
    answers are untouched.  It returns [false] exactly when the request is
    refused, and then changes nothing. *)
Theorem updateSessionWarnings_partial (net : network) (sessionId : string)
    (w : warningData) (db : Db) :
  let res := updateSessionWarnings net sessionId w db in
  res.1 = negb (net (Req Update "test_sessions" [sessionId]))
  ∧ (res.1 = false → res.2 = db)
  ∧ tbl_answers res.2 = tbl_answers db
  ∧ Forall2 (λ s s' : row,
       (s !! "id" ≠ Some (VStr sessionId) → s' = s)
       ∧ (∀ k, k ∉ ["total_warnings"; "tab_switch_count"; "fullscreen_exit_count"] →
               s' !! k = s !! k)
       ∧ (res.1 = true → s !! "id" = Some (VStr sessionId) →
            s' !! "total_warnings"
              = from_option (Some ∘ VNum) (s !! "total_warnings") (total_warnings w)
            ∧ s' !! "tab_switch_count"
              = from_option (Some ∘ VNum) (s !! "tab_switch_count") (tab_switch_count w)
            ∧ s' !! "fullscreen_exit_count"
              = from_option (Some ∘ VNum) (s !! "fullscreen_exit_count")
                  (fullscreen_exit_count w)))
      (tbl_test_sessions db) (tbl_test_sessions res.2).
Proof.
  intros res. unfold res, updateSessionWarnings.
  destruct (net _); simpl.
  { repeat split; try done.
    apply Forall_Forall2_diag, Forall_forall. by intros s _. }
  repeat split; try done.
  unfold update_where.
  apply Forall2_fmap_r, Forall_Forall2_diag, Forall_forall. intros s _; simpl.
  destruct (col_is "id" sessionId s) eqn:Hs.
  - split; [intros Hne; by apply col_is_true in Hs|].
    split; [intros k Hk; by rewrite spread_lookup_kept by by apply warning_patch_other|].
    intros _ _. unfold spread. rewrite !lookup_union, !warning_patch_lookup; simpl.
    by destruct (total_warnings w), (tab_switch_count w), (fullscreen_exit_count w),
      (s !! "total_warnings"), (s !! "tab_switch_count"), (s !! "fullscreen_exit_count").
  - split; [done|]. split; [done|].
    intros _ Hid. by apply col_is_false in Hs.
Qed.

(** X17: [updateSessionWarnings] and [submitTest] may come in either
    order: the store ends the same and each call returns the same. *)
Theorem warnings_commute_with_submission (net : network) (clock : string → string)
    (now sessionId warned : string) (answers : gmap string string) (forced : bool)
    (w : warningData) (db : Db) :
  let warn := updateSessionWarnings net warned w in
  let submit := submitTest net clock now sessionId answers forced in
  (submit (warn db).2).2 = (warn (submit db).2).2
  ∧ (submit (warn db).2).1 = (submit db).1
  ∧ (warn (submit db).2).1 = (warn db).1.
Proof.
  intros warn submit. unfold warn, submit.
  rewrite !submitTest_result. split; [|split; [done|]].
  - unfold updateSessionWarnings.
    destruct (net (Req Update "test_sessions" [warned])) eqn:Hw; [done|]. simpl.
    rewrite !submitTest_unfold; simpl.
    rewrite submitAnswers_with_sessions; simpl.
    set (db1 := (submitAnswers net clock sessionId (map_to_list answers) db).2).
    assert (Hs : tbl_test_sessions db1 = tbl_test_sessions db)
      by apply submitAnswers_sessions.
    destruct (net (Req Update "test_sessions" [sessionId])); simpl.
    + by rewrite Hs.
    + unfold with_test_sessions; simpl. f_equal. rewrite Hs.
      apply update_where_comm.
      * apply map_disjoint_alt. intros k.
        pose proof (warning_status_disjoint w now forced) as Hd.
        rewrite map_disjoint_alt in Hd. destruct (Hd k); [by right|by left].
      * intros r. apply col_is_spread. apply warning_patch_other. not_listed.
      * intros r. by apply col_is_spread.
  - unfold updateSessionWarnings. by destruct (net _).
Qed.

(** ** The monitoring log *)

(** X18: [logMonitoringEvent] only ever appends.  A refused call leaves
    the table as it is; a call carried out keeps every entry and adds one
    at the end, for the session, type and data given, under a key not in
    use, so that keys that were distinct stay distinct. *)
Theorem logMonitoringEvent_appends (net : network) (sessionId eventType : string)
    (eventData : option value) (logs : list row) :
  let res := logMonitoringEvent net sessionId eventType eventData logs in
  res.1 = negb (net (Req Insert "monitoring_logs" [sessionId; eventType]))
  ∧ (res.1 = false → res.2 = logs)
  ∧ (res.1 = true →
     ∃ entry, res.2 = logs ++ [entry]
       ∧ entry !! "session_id" = Some (VStr sessionId)
       ∧ entry !! "event_type" = Some (VStr eventType)
       ∧ entry !! "event_data" = eventData
       ∧ (∃ k, row_key entry = Some k ∧ k ∉ keys logs))
  ∧ (NoDup (keys logs) → NoDup (keys res.2)).
Proof.
  intros res. unfold res, logMonitoringEvent.
  destruct (net _); simpl; [by repeat split|].
  split; [done|]. split; [done|]. split; [|apply NoDup_keys_insert_row].
  intros _.
  set (entry := stored (log_values sessionId eventType eventData) logs).
  assert (Hfields : entry !! "session_id" = Some (VStr sessionId)
                    ∧ entry !! "event_type" = Some (VStr eventType)
                    ∧ entry !! "event_data" = eventData).
  { unfold entry, stored, log_values, set_field.
    destruct eventData; repeat split; by simplify_map_eq. }
  destruct Hfields as (Hs & Ht & Hd).
  exists entry. repeat split; try done.
  exists (new_key logs). split; [apply row_key_stored|apply new_key_fresh].
Qed.

(** ** Sessions that cannot be told apart *)

(** X19: whenever the lookup of [getOrCreateSession] does not come back
    with exactly one session, because it failed or because the pair has
    none or several, the hook goes on to insert.  If the insert goes
    through, the pair has one more session than before and the new one is
    returned; if it is refused, the error is thrown and the store is as it
    was. *)
Theorem getOrCreateSession_without_single_match (net : network)
    (now testId studentId : string) (db : Db) :
  net (Req Select "test_sessions" [testId; studentId]) = true
  ∨ length (sessions_for testId studentId (tbl_test_sessions db)) ≠ 1%nat →
  let res := getOrCreateSession net now testId studentId db in
  (net (Req Insert "test_sessions" [testId; studentId]) = true →
   res = (Thrown, db))
  ∧ (net (Req Insert "test_sessions" [testId; studentId]) = false →
     ∃ s, res.1 = Returned s
       ∧ s !! "status" = Some (VStr "active")
       ∧ tbl_test_sessions res.2 = tbl_test_sessions db ++ [s]
       ∧ sessions_for testId studentId (tbl_test_sessions res.2)
         = sessions_for testId studentId (tbl_test_sessions db) ++ [s]).
Proof.
  intros Hcase res.
  assert (Hnone : (if net (Req Select "test_sessions" [testId; studentId]) then None
                   else select_single (session_of testId studentId)
                          (tbl_test_sessions db)) = None).
  { destruct Hcase as [->|Hlen]; [done|]. destruct (net _); [done|].
    unfold select_single, sessions_for in *.
    by destruct (filter _ (tbl_test_sessions db)) as [|? [|? ?]]. }
  unfold res, getOrCreateSession. rewrite Hnone. split.
  - by intros ->.
  - intros ->. eexists. split; [reflexivity|]. split; [done|]. split; [done|].
    simpl. unfold sessions_for, insert_row.
    rewrite filter_app, filter_cons, decide_True; [done|].
    unfold session_of. apply andb_true_iff. by split; apply col_is_true.
Qed.

Lemma getOrCreateSession_without_single_match_witness :
  ∃ s, (getOrCreateSession reliable "now" "t1" "u1" twice_enrolled).1 = Returned s
    ∧ length (sessions_for "t1" "u1"
        (tbl_test_sessions (getOrCreateSession reliable "now" "t1" "u1" twice_enrolled).2))
      = 3%nat.
Proof.
  assert (Hmany : length (sessions_for "t1" "u1" (tbl_test_sessions twice_enrolled))
                  ≠ 1%nat) by (vm_compute; discriminate).
  assert (Hins : reliable (Req Insert "test_sessions" ["t1"; "u1"]) = false)
    by reflexivity.
  destruct (proj2 (getOrCreateSession_without_single_match reliable "now" "t1" "u1"
                     twice_enrolled (or_intror Hmany)) Hins)
    as (s & Hs & _ & _ & Hfor).
  exists s. split; [exact Hs|]. rewrite Hfor, length_app. reflexivity.
Defined.

(** ** The monitoring dashboard *)

Section monitoring.
Import Monitoring.
Implicit Types (s : session) (sessions : list session).

Lemma as_row_status s : as_row s !! "status" = Some (VStr (status s)).
Proof. unfold as_row. by simplify_map_eq. Qed.

Lemma count_as_row (p : row → bool) (P : session → Prop) `{!∀ s, Decision (P s)}
    sessions :
  (∀ s, p (as_row s) = true ↔ P s) →
  count p (as_row <$> sessions) = Z.of_nat (length (filter P sessions)).
Proof.
  intros Hp. induction sessions as [|s l IH]; [done|].
  rewrite fmap_cons, count_cons, IH, filter_cons.
  destruct (decide (P s)) as [HP|HP].
  - rewrite (proj2 (Hp s) HP), length_cons, Nat2Z.inj_succ. unfold b2z. lia.
  - destruct (p (as_row s)) eqn:E; [by apply Hp in E|]. unfold b2z. lia.
Qed.

Lemma length_filter_either (P Q : session → Prop)
    `{!∀ s, Decision (P s)} `{!∀ s, Decision (Q s)} sessions :
  (∀ s, P s → Q s → False) →
  length (filter (λ s, P s ∨ Q s) sessions)
  = (length (filter P sessions) + length (filter Q sessions))%nat.
Proof.
  intros Hdis. induction sessions as [|s l IH]; [done|].
  rewrite !filter_cons.
  destruct (decide (P s)) as [HP|HP], (decide (Q s)) as [HQ|HQ].
  - by destruct (Hdis s).
  - rewrite decide_True by by left. simpl. by rewrite IH.
  - rewrite decide_True by by right. simpl. rewrite IH. lia.
  - rewrite decide_False by by intros [?|?]. done.
Qed.

Lemma totalWarnings_from sessions (start : Z) :
  fold_left (λ acc s, acc + total_warnings s) sessions start
  = start + totalWarnings sessions.
Proof.
  unfold totalWarnings. revert start.
  induction sessions as [|s l IH]; intros start; simpl; [lia|].
  rewrite (IH (start + total_warnings s)), (IH (0 + total_warnings s)). lia.
Qed.

Lemma totalWarnings_cons s sessions :
  totalWarnings (s :: sessions) = total_warnings s + totalWarnings sessions.
Proof. unfold totalWarnings at 1; simpl. by rewrite totalWarnings_from. Qed.
End monitoring.

(** X20: the two dashboards count the same sessions as submitted and as
    terminated, but not as active: the monitoring dashboard counts the
    sessions in progress only, the evaluation statistics also those with
    the status active, which is the status a session is created with.
    Such a session gets neither the Live badge nor a Terminate or Allow
    button. *)
Theorem dashboards_differ_on_active (sessions : list Monitoring.session)
    (answers : list row) :
  let st := getLiveStats (Monitoring.as_row <$> sessions) answers in
  activeSessions st
  = Z.of_nat (length (Monitoring.activeSessions sessions))
    + Z.of_nat (length (filter (λ s, Monitoring.status s = "active") sessions))
  ∧ submittedSessions st = Z.of_nat (length (Monitoring.completedSessions sessions))
  ∧ terminatedSessions st = Z.of_nat (length (Monitoring.terminatedSessions sessions))
  ∧ ∀ s, Monitoring.status s = "active" →
      is_active (Monitoring.as_row s) = true
      ∧ (s ∉ Monitoring.activeSessions sessions)
      ∧ Monitoring.getStatusBadge (Monitoring.status s) = Monitoring.Outline "active"
      ∧ Monitoring.offersTerminate s = false
      ∧ Monitoring.offersAllow s = false.
Proof.
  intros st. unfold st, getLiveStats; simpl.
  assert (Hstatus : ∀ x s, status_is x (Monitoring.as_row s) = true
                           ↔ Monitoring.status s = x).
  { intros x s. unfold status_is. rewrite col_is_true, as_row_status.
    split; [by intros [= ->]|by intros ->]. }
  split; [|split; [|split]].
  - rewrite <- Nat2Z.inj_add. unfold Monitoring.activeSessions.
    rewrite <- (length_filter_either (λ s, Monitoring.status s = "in_progress")
                  (λ s, Monitoring.status s = "active")) by congruence.
    apply count_as_row. intros s. unfold is_active.
    rewrite orb_true_iff, !Hstatus. tauto.
  - apply count_as_row. intros s. unfold is_submitted.
    by rewrite orb_true_iff, !Hstatus.
  - apply count_as_row. intros s. unfold is_terminated. by rewrite Hstatus.
  - intros s Hs. split; [|split; [|split; [|split]]].
    + unfold is_active. apply orb_true_iff. left. by apply Hstatus.
    + unfold Monitoring.activeSessions. rewrite list_elem_of_filter.
      intros [Hp _]. congruence.
    + by rewrite Hs.
    + unfold Monitoring.offersTerminate. apply bool_decide_eq_false. congruence.
    + unfold Monitoring.offersAllow. apply bool_decide_eq_false. congruence.
Qed.

(** X21: the students at risk are active students, in the order of the
    list; and when no session has a negative count, the total of the
    warnings is at least the threshold times the number of students at
    risk. *)
Theorem at_risk_students_bound (warningThreshold : Z)
    (sessions : list Monitoring.session) :
  Monitoring.studentsAtRisk warningThreshold sessions
  = filter (λ s, Monitoring.total_warnings s >= warningThreshold)
      (Monitoring.activeSessions sessions)
  ∧ (Forall (λ s, 0 ≤ Monitoring.total_warnings s) sessions →
     warningThreshold
       * Z.of_nat (length (Monitoring.studentsAtRisk warningThreshold sessions))
     ≤ Monitoring.totalWarnings sessions).
Proof.
  split.
  - unfold Monitoring.studentsAtRisk, Monitoring.activeSessions.
    induction sessions as [|s l IH]; [done|].
    rewrite !filter_cons. repeat case_decide; rewrite ?filter_cons;
      repeat case_decide; try (exfalso; intuition congruence); by rewrite ?IH.
  - induction 1 as [|s l Hs _ IH].
    { unfold Monitoring.studentsAtRisk, Monitoring.totalWarnings.
      rewrite filter_nil. simpl. lia. }
    rewrite totalWarnings_cons. unfold Monitoring.studentsAtRisk in *.
    rewrite filter_cons. case_decide as Hrisk.
    + rewrite length_cons, Nat2Z.inj_succ. destruct Hrisk as [Hw _]. lia.
    + lia.
Qed.

Lemma at_risk_students_bound_witness :
  let s1 := Monitoring.mkSession "s1" "Asha" "asha@x.in" "in_progress" None None 4 3 1 in
  let s2 := Monitoring.mkSession "s2" "Ravi" "ravi@x.in" "completed" None None 5 5 0 in
  3 * Z.of_nat (length (Monitoring.studentsAtRisk 3 [s1; s2]))
  ≤ Monitoring.totalWarnings [s1; s2].
Proof.
  intros s1 s2.
  refine (proj2 (at_risk_students_bound 3 [s1; s2]) _).
  repeat constructor; simpl; lia.
Defined.

(** X22: the colour of a warning count.  Green is for no warning, and for
    nothing else; a count below the threshold, other than none, is yellow;
    the rest is red.  With a threshold above zero every student at risk is
    shown in red. *)
Theorem warning_colour_matches_risk (warningThreshold : Z)
    (sessions : list Monitoring.session) (warnings : Z) :
  (Monitoring.getWarningColor warningThreshold warnings = "text-green-500"
   ↔ warnings = 0)
  ∧ (Monitoring.getWarningColor warningThreshold warnings = "text-yellow-500"
     ↔ warnings ≠ 0 ∧ warnings < warningThreshold)
  ∧ (Monitoring.getWarningColor warningThreshold warnings = "text-red-500 font-bold"
     ↔ warnings ≠ 0 ∧ warningThreshold ≤ warnings)
  ∧ (0 < warningThreshold →
     ∀ s, s ∈ Monitoring.studentsAtRisk warningThreshold sessions →
       Monitoring.getWarningColor warningThreshold (Monitoring.total_warnings s)
       = "text-red-500 font-bold").
Proof.
  assert (Hcol : ∀ w,
    (Monitoring.getWarningColor warningThreshold w = "text-green-500" ↔ w = 0)
    ∧ (Monitoring.getWarningColor warningThreshold w = "text-yellow-500"
       ↔ w ≠ 0 ∧ w < warningThreshold)
    ∧ (Monitoring.getWarningColor warningThreshold w = "text-red-500 font-bold"
       ↔ w ≠ 0 ∧ warningThreshold ≤ w)).
  { intros w. unfold Monitoring.getWarningColor.
    repeat case_decide; repeat split; intros; try done; try lia;
      try (destruct_and?; lia). }
  destruct (Hcol warnings) as (Hg & Hy & Hr).
  split; [done|]. split; [done|]. split; [done|].
  intros Hpos s Hin. apply Hcol.
  unfold Monitoring.studentsAtRisk in Hin.
  apply list_elem_of_filter in Hin as [[Hw _] _]. lia.
Qed.

(** ** Signing in *)

Section auth.
Import Auth.

Lemma matches_true identifier pw (r : UserRole) (u : MockUser) :
  matches identifier pw (Some r) u = true
  ↔ password u = pw
    ∧ (email (account u) = identifier ∨ (r ≠ admin ∧ erpId (account u) = identifier)).
Proof.
  unfold matches.
  rewrite orb_true_iff, !andb_true_iff, orb_true_iff, !bool_decide_eq_true.
  destruct (decide (r = admin)) as [->|Hr].
  - split; [intros [[[_ ?] ?]|[? _]]; [tauto|done]|]. intros [? [?|[? _]]]; [|done].
    by left.
  - split.
    + intros [[[[= ?] _] _]|[_ [[?|?] ?]]]; [done|tauto..].
    + intros [? [?|[_ ?]]]; right; (split; [congruence|tauto]).
Qed.

Lemma mock_users_role (r : UserRole) (u : MockUser) :
  u ∈ MOCK_USERS r → role (account u) = Some r.
Proof.
  destruct r; simpl; intros Hin;
    repeat (apply elem_of_cons in Hin as [->|Hin]; [done|]);
    by apply elem_of_nil in Hin.
Qed.

Lemma loginLocal_true_iff identifier pw (r : option UserRole) (st : AuthState) :
  (loginLocal identifier pw r st).1 = true
  ↔ ∃ r' u, r = Some r' ∧ u ∈ MOCK_USERS r' ∧ password u = pw
      ∧ (email (account u) = identifier
         ∨ (r' ≠ admin ∧ erpId (account u) = identifier)).
Proof.
  unfold loginLocal. destruct r as [r|]; simpl.
  - destruct (List.find _ _) as [u|] eqn:Hfind; simpl.
    + apply List.find_some in Hfind as [Hin Hm%matches_true].
      split; [intros _|done]. exists r, u. by rewrite list_elem_of_In.
    + split; [done|]. intros (r' & u & [= <-] & Hin%list_elem_of_In & Hpw & Hid).
      pose proof (List.find_none _ _ Hfind u Hin) as Hno.
      by rewrite (proj2 (matches_true identifier pw r u)) in Hno.
  - split; [done|]. by intros (? & ? & ? & _).
Qed.

Lemma before_at_append (s t : string) :
  contains_at s = false → before_at (s +:+ String at_sign t) = s.
Proof.
  induction s as [|c s IH]; simpl.
  - done.
  - destruct (decide (c = at_sign)); [done|]. intros H. by rewrite IH.
Qed.

Lemma before_at_clean (s : string) : contains_at (before_at s) = false.
Proof.
  induction s as [|c s IH]; simpl; [done|].
  destruct (decide (c = at_sign)); [done|]. simpl. by rewrite decide_False.
Qed.
End auth.

(** X23: [loginLocal] succeeds exactly when the password is that of a
    mock user of the role asked for whose email is the identifier, or,
    for a role other than admin, whose ERP id is.  It then signs in and
    stores that user, who has the role asked for; otherwise it leaves the
    state alone.  Without a role it never succeeds. *)
Theorem loginLocal_checks_credentials (identifier pw : string)
    (role : option Auth.UserRole) (st : Auth.AuthState) :
  let res := Auth.loginLocal identifier pw role st in
  (res.1 = true
   ↔ ∃ r u, role = Some r ∧ u ∈ Auth.MOCK_USERS r ∧ Auth.password u = pw
       ∧ (Auth.email (Auth.account u) = identifier
          ∨ (r ≠ Auth.admin ∧ Auth.erpId (Auth.account u) = identifier)))
  ∧ (res.1 = true →
     ∃ u, Auth.user res.2 = Some u ∧ Auth.stored res.2 = Some u
       ∧ Auth.role u = role
       ∧ (Auth.email u = identifier ∨ Auth.erpId u = identifier))
  ∧ (res.1 = false → res.2 = st)
  ∧ (role = None → res = (false, st)).
Proof.
  intros res. split; [apply loginLocal_true_iff|].
  unfold res, Auth.loginLocal. destruct role as [r|]; simpl; [|done].
  destruct (List.find _ _) as [u|] eqn:Hfind; simpl; [|done].
  apply List.find_some in Hfind as [Hin%list_elem_of_In Hm%matches_true].
  split; [|done]. intros _. exists (Auth.account u).
  split; [done|]. split; [done|]. split; [by apply mock_users_role|].
  destruct Hm as [_ [?|[_ ?]]]; tauto.
Qed.

(** X24: signing in with an ERP id and reading the ERP id back agree.
    An identifier without [@] is signed in as [identifier@pariksha.edu],
    and the part of that address before the [@], which is what a profile's
    ERP id is made of, is the identifier again.  An identifier with [@] is
    used as it is, and an ERP id never contains [@]. *)
Theorem erp_id_round_trip (identifier : string) :
  (Auth.contains_at identifier = false →
   Auth.before_at (Auth.login_email identifier) = identifier)
  ∧ (Auth.contains_at identifier = true → Auth.login_email identifier = identifier)
  ∧ Auth.contains_at (Auth.before_at identifier) = false.
Proof.
  unfold Auth.login_email. split; [|split].
  - intros H. rewrite H. by apply (before_at_append identifier "pariksha.edu").
  - by intros ->.
  - apply before_at_clean.
Qed.

(** X25: when the hosted sign-in accepts, [login] returns [true] whatever
    becomes of the profile.  Without exactly one profile for the user the
    state is left as it was; with one, the user signed in and stored has
    the profile's name and email, the part of the email before [@] as ERP
    id, and the role of the user's one role row, or student when that row
    cannot be read or is not the only one, with the permissions of that
    role. *)
Theorem login_with_hosted_account (auth : string → string → Auth.signIn)
    (net : network) (db : Auth.AuthDb) (identifier pw userId : string)
    (role : option Auth.UserRole) (st : Auth.AuthState) :
  auth (Auth.login_email identifier) pw = Auth.SignedIn userId →
  let res := Auth.login auth net db identifier pw role st in
  let mine := filter (λ p, Auth.profile_id p = userId) (Auth.profiles db) in
  let roles := filter (λ r, Auth.user_id r = userId) (Auth.user_roles db) in
  res.1 = true
  ∧ (net (Req Select "profiles" [userId]) = true ∨ length mine ≠ 1%nat →
     res.2 = st)
  ∧ (∀ p, net (Req Select "profiles" [userId]) = false → mine = [p] →
     ∃ u r, Auth.user res.2 = Some u ∧ Auth.stored res.2 = Some u
       ∧ Auth.id u = userId
       ∧ Auth.name u = Auth.full_name p
       ∧ Auth.email u = Auth.profile_email p
       ∧ Auth.erpId u = Auth.before_at (Auth.profile_email p)
       ∧ Auth.role u = Some r
       ∧ Auth.permissions u = Auth.DEFAULT_PERMISSIONS r
       ∧ (net (Req Select "user_roles" [userId]) = true ∨ length roles ≠ 1%nat →
          r = Auth.student)
       ∧ (∀ x, net (Req Select "user_roles" [userId]) = false → roles = [x] →
          r = Auth.granted x)).
Proof.
  intros Hauth res mine roles. unfold res, Auth.login. rewrite Hauth; simpl.
  split; [done|]. unfold Auth.fetchUserProfile. fold mine roles. split.
  - intros [->|Hlen]; [done|]. destruct (net _); [done|].
    by destruct mine as [|? [|? ?]].
  - intros p -> ->; simpl.
    eexists _, _. repeat split.
    + intros [->|Hlen]; [done|]. destruct (net _); [done|].
      by destruct roles as [|? [|? ?]].
    + by intros x -> ->.
Qed.

Lemma login_with_hosted_account_witness :
  let auth := λ _ _ : string, Auth.SignedIn "u1" in
  let st := Auth.mkAuth None None in
  (Auth.login auth reliable no_profile "asha" "pw" (Some Auth.student) st).1 = true
  ∧ (Auth.login auth reliable no_profile "asha" "pw" (Some Auth.student) st).2 = st.
Proof.
  intros auth st.
  destruct (login_with_hosted_account auth reliable no_profile "asha" "pw" "u1"
              (Some Auth.student) st eq_refl) as (Hres & Hnone & _).
  split; [exact Hres|]. apply Hnone. right. simpl. discriminate.
Defined.

(** X26: [getUsers] lists only users of the role asked for: each is built
    from a profile whose id a role row gives that role.  When both queries
    are answered it lists every such profile; for the role [null] it lists
    nobody. *)
Theorem getUsers_lists_the_role (net : network) (db : Auth.AuthDb)
    (role : option Auth.UserRole) :
  (∀ u, u ∈ Auth.getUsers net db role →
     ∃ r p x, role = Some r ∧ Auth.role u = Some r
       ∧ p ∈ Auth.profiles db ∧ x ∈ Auth.user_roles db
       ∧ Auth.user_id x = Auth.profile_id p ∧ Auth.granted x = r
       ∧ u = Auth.user_of p r)
  ∧ (∀ r p x, role = Some r →
       net (Req Select "user_roles" [Auth.role_name r]) = false →
       net (Req Select "profiles"
              (Auth.user_id <$> filter (λ x, Auth.granted x = r) (Auth.user_roles db)))
       = false →
       p ∈ Auth.profiles db → x ∈ Auth.user_roles db →
       Auth.user_id x = Auth.profile_id p → Auth.granted x = r →
       Auth.user_of p r ∈ Auth.getUsers net db role)
  ∧ Auth.getUsers net db None = [].
Proof.
  split; [|split; [|done]].
  - intros u. unfold Auth.getUsers. destruct role as [r|]; [|by intros ?%elem_of_nil].
    destruct (net (Req Select "user_roles" _)); [by intros ?%elem_of_nil|].
    destruct (filter _ (Auth.user_roles db)) as [|x0 l] eqn:Hroles;
      [by intros ?%elem_of_nil|].
    destruct (net (Req Select "profiles" _)); [by intros ?%elem_of_nil|].
    intros (p & -> & [Hid Hp]%list_elem_of_filter)%list_elem_of_fmap.
    apply list_elem_of_fmap in Hid as (x & Hx & Hin).
    rewrite <- Hroles in Hin. apply list_elem_of_filter in Hin as [Hg Hin].
    by exists r, p, x.
  - intros r p x -> Hn1 Hn2 Hp Hx Hid Hg. unfold Auth.getUsers. rewrite Hn1.
    assert (Hin : x ∈ filter (λ x, Auth.granted x = r) (Auth.user_roles db))
      by by apply list_elem_of_filter.
    destruct (filter _ (Auth.user_roles db)) as [|x0 l] eqn:Hroles;
      [by apply elem_of_nil in Hin|].
    rewrite Hn2. apply (list_elem_of_fmap_2 (λ p, Auth.user_of p r)).
    apply list_elem_of_filter. split; [|done].
    rewrite <- Hid. by apply (list_elem_of_fmap_2 Auth.user_id).
Qed.

(** X27: when does [login] succeed.  It returns [true] exactly when the
    hosted sign-in hands back a user, or the hosted sign-in fails, by an
    error or by an exception, and the identifier and password are those of
    a mock user of the role asked for. *)
Theorem login_succeeds_iff (auth : string → string → Auth.signIn) (net : network)
    (db : Auth.AuthDb) (identifier pw : string) (role : option Auth.UserRole)
    (st : Auth.AuthState) :
  (Auth.login auth net db identifier pw role st).1 = true
  ↔ (∃ userId, auth (Auth.login_email identifier) pw = Auth.SignedIn userId)
    ∨ ((auth (Auth.login_email identifier) pw = Auth.Rejected
        ∨ auth (Auth.login_email identifier) pw = Auth.Threw)
       ∧ ∃ r u, role = Some r ∧ u ∈ Auth.MOCK_USERS r ∧ Auth.password u = pw
           ∧ (Auth.email (Auth.account u) = identifier
              ∨ (r ≠ Auth.admin ∧ Auth.erpId (Auth.account u) = identifier))).
Proof.
  unfold Auth.login.
  destruct (auth (Auth.login_email identifier) pw) as [| |userId|] eqn:Hauth.
  - rewrite loginLocal_true_iff. split; [intros H; right; by split; [left|]|].
    by intros [[? ?]|[_ ?]].
  - rewrite loginLocal_true_iff. split; [intros H; right; by split; [right|]|].
    by intros [[? ?]|[_ ?]].
  - split; [intros _; left; by exists userId|done].
  - split; [done|]. by intros [[? ?]|[[?|?] _]].
Qed.

(** X28: who reaches the evaluation page after [loginLocal].  A mock user
    signed in as faculty or as admin may open it, one signed in as student
    may not, and neither may anyone when the sign-in failed from the
    signed-out state. *)
Theorem may_evaluate_after_loginLocal (identifier pw : string)
    (role : option Auth.UserRole) :
  let res := Auth.loginLocal identifier pw role (Auth.mkAuth None None) in
  may_evaluate (Auth.user res.2)
  = res.1 && bool_decide (role ≠ Some Auth.student).
Proof.
  intros res. unfold res, Auth.loginLocal. destruct role as [r|]; simpl; [|done].
  destruct (List.find _ _) as [u|] eqn:Hfind; simpl; [|done].
  apply List.find_some in Hfind as [Hin%list_elem_of_In _].
  rewrite (mock_users_role r u Hin). by destruct r.
Qed.

(** ** The evaluation panel *)

(** X29: the panel has one item per answer of the selected session, in
    their order.  An answer is hidden exactly when the test has no
    question with its [question_id]; the grading form is offered exactly
    for the answers that have their question and no truthy [graded_by].
    So the forms shown are never more than the pending count of the
    overview, and as many when every answer has its question. *)
Theorem evaluation_panel_items (questions answers : list row) (sessionId : string) :
  sessionId ≠ "" →
  let mine := getSessionAnswers answers sessionId in
  let items := evaluation_panel questions answers (Some sessionId) in
  let has_question a := ∃ q, q ∈ questions ∧ q !! "id" = a !! "question_id" in
  Forall2 (λ a item,
     (item = Hidden ↔ ¬ has_question a)
     ∧ (is_form item = true ↔ has_question a ∧ truthy (a !! "graded_by") = false))
    mine items
  ∧ Z.of_nat (length (filter (λ i, is_form i = true) items))
    ≤ pendingCount answers sessionId
  ∧ ((∀ a, a ∈ mine → has_question a) →
     Z.of_nat (length (filter (λ i, is_form i = true) items))
     = pendingCount answers sessionId).
Proof.
  intros Hid mine items has_question.
  assert (Hitems : items = panel_item_of questions <$> mine).
  { unfold items, evaluation_panel. by rewrite decide_False. }
  assert (Hitem : ∀ a,
    (panel_item_of questions a = Hidden ↔ ¬ has_question a)
    ∧ (is_form (panel_item_of questions a) = true
       ↔ has_question a ∧ truthy (a !! "graded_by") = false)).
  { intros a. unfold panel_item_of.
    destruct (List.find _ questions) as [q|] eqn:Hfind.
    - apply List.find_some in Hfind as [Hin%list_elem_of_In Hq%bool_decide_eq_true].
      assert (Hhas : has_question a) by by exists q.
      destruct (truthy (a !! "graded_by")); simpl; split; split; try done;
        try tauto; by intros [_ ?].
    - assert (Hno : ¬ has_question a).
      { intros (q & Hin%list_elem_of_In & Hq).
        pose proof (List.find_none _ _ Hfind q Hin) as Hn.
        by apply bool_decide_eq_false in Hn. }
      simpl. split; split; try done. by intros [? _]. }
  assert (Hpending : pendingCount answers sessionId
                     = count (λ a, negb (truthy (a !! "graded_by"))) mine) by done.
  assert (Hforms : Z.of_nat (length (filter (λ i, is_form i = true) items))
                   = count (λ a, is_form (panel_item_of questions a)) mine).
  { rewrite Hitems. clear. induction mine as [|a l IH]; [done|].
    rewrite fmap_cons, filter_cons, count_cons, <- IH.
    destruct (is_form (panel_item_of questions a)) eqn:E.
    - rewrite decide_True, length_cons, Nat2Z.inj_succ by done. unfold b2z. lia.
    - rewrite decide_False by done. unfold b2z. lia. }
  split; [|split].
  - rewrite Hitems. apply Forall2_fmap_r, Forall_Forall2_diag, Forall_forall.
    intros a _. apply Hitem.
  - rewrite Hforms, Hpending. apply count_mono. intros a _ Hf.
    apply Hitem in Hf as [_ ->]. done.
  - intros Hall. rewrite Hforms, Hpending. apply count_agree. intros a Ha.
    destruct (is_form (panel_item_of questions a)) eqn:E.
    + apply Hitem in E as [_ ->]. done.
    + destruct (truthy (a !! "graded_by")) eqn:Ht; [done|].
      assert (is_form (panel_item_of questions a) = true) as Hf
        by (apply Hitem; split; [by apply Hall|done]).
      congruence.
Qed.

Lemma evaluation_panel_items_witness :
  let q1 : row := {[ "id" := VStr "q1" ]} in
  let a1 : row := {[ "session_id" := VStr "s1"; "question_id" := VStr "q1";
                      "graded_by" := VNull ]} in
  let a2 : row := {[ "session_id" := VStr "s1"; "question_id" := VStr "q9";
                      "graded_by" := VNull ]} in
  Z.of_nat (length (filter (λ i, is_form i = true)
                      (evaluation_panel [q1] [a1; a2] (Some "s1"))))
  ≤ pendingCount [a1; a2] "s1".
Proof.
  intros q1 a1 a2.
  refine (proj1 (proj2 (evaluation_panel_items [q1] [a1; a2] "s1" _))).
  discriminate.
Defined.
